(** * SwiftCare: auto-dispatch trigger and request lifecycle

    A shallow embedding of the dispatch/lifecycle core of the SwiftCare
    ambulance application.

    - [supabase/migrations/*.sql]: the two tables, the row-level security
      policies, the [generate_tracking_code] and [auto_dispatch_ambulance]
      triggers;
    - the driver dashboard ([updateRequestStatus], [fetchData]);
    - the admin dashboard ([assignAmbulance], [assignDriverToAmbulance],
      [createAmbulance]);
    - the request form ([handleSubmit]);
    - [calculateDistance] of the map component (haversine).

    Conventions.  A [uuid] is a natural number, a timestamp an integer.  A
    [DOUBLE PRECISION] coordinate is an exact rational: rounding is not
    modelled.  A table is the list of its rows in scan order.  The managed
    backend (PostgreSQL with row-level security behind the Supabase client)
    is modelled by what it documents: an UPDATE silently skips the rows its
    USING policies hide, and raises an error only when a written row fails
    WITH CHECK or a constraint. *)

From Stdlib Require Import ZArith NArith QArith Qround Qreals Reals Lra Lia Psatz.
From Stdlib Require Import List Sorted Bool String Ascii.
Import ListNotations.

Set Implicit Arguments.

Close Scope Q_scope.

(** ** Data model *)

Definition uuid := N.
Definition timestamptz := Z.

Bind Scope N_scope with uuid.
Bind Scope Z_scope with timestamptz.

(** [CREATE TYPE public.app_role AS ENUM ('admin', 'driver')] *)
Inductive app_role := admin | driver.

Definition app_role_eqb (r1 r2 : app_role) : bool :=
  match r1, r2 with
  | admin, admin | driver, driver => true
  | _, _ => false
  end.

(** [public.ambulances], with the [base_lat]/[base_lng] columns added by the
    later migration.  The [status] CHECK constraint is the enumeration. *)
Module Amb.

Inductive status_t := available | en_route | arrived | busy | offline.

Record row := mk {
  id : uuid;
  driver_id : option uuid;
  plate_number : string;
  status : status_t;
  current_lat : option Q;
  current_lng : option Q;
  created_at : timestamptz;
  updated_at : timestamptz;
  base_lat : option Q;
  base_lng : option Q
}.

Definition status_eqb (s1 s2 : status_t) : bool :=
  match s1, s2 with
  | available, available | en_route, en_route | arrived, arrived
  | busy, busy | offline, offline => true
  | _, _ => false
  end.

(** The column list of an [UPDATE ambulances SET ...]: [None] leaves the
    column alone.  This is the [updateData] object of the driver dashboard. *)
Record patch := mk_patch {
  set_driver_id : option (option uuid);
  set_status : option status_t;
  set_current_lat : option (option Q);
  set_current_lng : option (option Q)
}.

Definition or_keep {A} (new : option A) (old : A) : A :=
  match new with Some v => v | None => old end.

(** One updated row.  The BEFORE UPDATE trigger [update_updated_at_column]
    stamps [updated_at] on every updated row. *)
Definition apply (p : patch) (now : timestamptz) (a : row) : row :=
  mk (id a)
     (or_keep (set_driver_id p) (driver_id a))
     (plate_number a)
     (or_keep (set_status p) (status a))
     (or_keep (set_current_lat p) (current_lat a))
     (or_keep (set_current_lng p) (current_lng a))
     (created_at a)
     now
     (base_lat a)
     (base_lng a).

End Amb.

(** [public.emergency_requests].  The [status] CHECK constraint is the
    enumeration. *)
Module Req.

Inductive status_t :=
  pending | assigned | en_route | arrived | completed | cancelled.

Record row := mk {
  id : uuid;
  tracking_code : string;
  requester_name : option string;
  requester_phone : string;
  emergency_type : string;
  description : option string;
  location_lat : Q;
  location_lng : Q;
  location_address : option string;
  status : status_t;
  assigned_ambulance_id : option uuid;
  assigned_driver_id : option uuid;
  created_at : timestamptz;
  updated_at : timestamptz;
  completed_at : option timestamptz
}.

Definition status_eqb (s1 s2 : status_t) : bool :=
  match s1, s2 with
  | pending, pending | assigned, assigned | en_route, en_route
  | arrived, arrived | completed, completed | cancelled, cancelled => true
  | _, _ => false
  end.

Record patch := mk_patch {
  set_status : option status_t;
  set_assigned_ambulance_id : option (option uuid);
  set_assigned_driver_id : option (option uuid);
  set_completed_at : option (option timestamptz)
}.

Definition apply (p : patch) (now : timestamptz) (r : row) : row :=
  mk (id r) (tracking_code r) (requester_name r) (requester_phone r)
     (emergency_type r) (description r) (location_lat r) (location_lng r)
     (location_address r)
     (Amb.or_keep (set_status p) (status r))
     (Amb.or_keep (set_assigned_ambulance_id p) (assigned_ambulance_id r))
     (Amb.or_keep (set_assigned_driver_id p) (assigned_driver_id r))
     (created_at r)
     now
     (Amb.or_keep (set_completed_at p) (completed_at r)).

(** The terminal states of the lifecycle, and their complement. *)
Definition terminal (s : status_t) : bool :=
  match s with completed | cancelled => true | _ => false end.

Definition active (r : row) : bool := negb (terminal (status r)).

End Req.

(** The database: the two tables and [public.user_roles]. *)
Record db := mk_db {
  ambulances : list Amb.row;
  emergency_requests : list Req.row;
  user_roles : list (uuid * app_role)
}.

(** SQL [=] on nullable uuids, used in a WHERE or USING position: a NULL
    operand never makes the comparison true. *)
Definition sql_eq (x y : option uuid) : bool :=
  match x, y with
  | Some a, Some b => N.eqb a b
  | _, _ => false
  end.

Definition is_null {A} (x : option A) : bool :=
  match x with None => true | Some _ => false end.

(** ** The auto-dispatch trigger *)

Definition COALESCE (x : option Q) (d : Q) : Q :=
  match x with Some v => v | None => d end.

(** The fallback point of the trigger. *)
Definition fallback_lat : Q := 9.0579.
Definition fallback_lng : Q := 7.4951.

(** The [distance] column of the trigger's query,
    [SQRT(POWER(COALESCE(a.current_lat, 9.0579) - NEW.location_lat, 2) +
          POWER(COALESCE(a.current_lng, 7.4951) - NEW.location_lng, 2))],
    read over the reals. *)
Definition distance (a : Amb.row) (lat lng : Q) : R :=
  sqrt ((Q2R (COALESCE (Amb.current_lat a) fallback_lat) - Q2R lat) ^ 2 +
        (Q2R (COALESCE (Amb.current_lng a) fallback_lng) - Q2R lng) ^ 2)%R.

(** The radicand of [distance], computed in the rationals.  The square root
    is increasing, so ORDER BY [distance] is ORDER BY [distance_sq]
    (lemma [distance_le_iff]); the executable model compares radicands. *)
Definition distance_sq (a : Amb.row) (lat lng : Q) : Q :=
  ((COALESCE (Amb.current_lat a) fallback_lat - lat) ^ 2 +
   (COALESCE (Amb.current_lng a) fallback_lng - lng) ^ 2)%Q.

(** [WHERE a.status = 'available' AND a.driver_id IS NOT NULL] *)
Definition candidate (a : Amb.row) : bool :=
  Amb.status_eqb (Amb.status a) Amb.available && negb (is_null (Amb.driver_id a)).

(** [ORDER BY distance ASC LIMIT 1] over a row list: the first row of least
    distance. *)
Fixpoint order_by_distance_limit_1 (lat lng : Q) (rows : list Amb.row)
  : option Amb.row :=
  match rows with
  | [] => None
  | a :: rest =>
    match order_by_distance_limit_1 lat lng rest with
    | None => Some a
    | Some b =>
      if Qle_bool (distance_sq a lat lng) (distance_sq b lat lng)
      then Some a else Some b
    end
  end.

(** The SELECT ... INTO [nearest_ambulance] of the trigger. *)
Definition nearest_ambulance (tbl : list Amb.row) (lat lng : Q) : option Amb.row :=
  order_by_distance_limit_1 lat lng (filter candidate tbl).

(** [UPDATE ambulances SET ... WHERE id = target], run with the rights of the
    function owner (SECURITY DEFINER: the policies do not apply). *)
Definition update_ambulance_by_id (target : uuid) (p : Amb.patch)
  (now : timestamptz) (tbl : list Amb.row) : list Amb.row :=
  map (fun a => if N.eqb (Amb.id a) target then Amb.apply p now a else a) tbl.

Definition busy_patch : Amb.patch :=
  Amb.mk_patch None (Some Amb.busy) None None.

(** The NEW row after the three assignments of the trigger.  A BEFORE INSERT
    trigger edits NEW in place: no other column moves. *)
Definition assign_NEW (a : Amb.row) (NEW : Req.row) : Req.row :=
  Req.mk (Req.id NEW) (Req.tracking_code NEW) (Req.requester_name NEW)
    (Req.requester_phone NEW) (Req.emergency_type NEW) (Req.description NEW)
    (Req.location_lat NEW) (Req.location_lng NEW) (Req.location_address NEW)
    Req.assigned
    (Some (Amb.id a))
    (Amb.driver_id a)
    (Req.created_at NEW) (Req.updated_at NEW) (Req.completed_at NEW).

(** [public.auto_dispatch_ambulance()]: the ambulance table and NEW before,
    the ambulance table and the returned NEW after. *)
Definition auto_dispatch_ambulance (now : timestamptz) (tbl : list Amb.row)
  (NEW : Req.row) : list Amb.row * Req.row :=
  if Req.status_eqb (Req.status NEW) Req.pending
     && is_null (Req.assigned_ambulance_id NEW)
  then
    match nearest_ambulance tbl (Req.location_lat NEW) (Req.location_lng NEW) with
    | Some nearest =>
      (update_ambulance_by_id (Amb.id nearest) busy_patch now tbl,
       assign_NEW nearest NEW)
    | None => (tbl, NEW)
    end
  else (tbl, NEW).

(** ** Tracking codes *)

Definition hex_digits : list ascii :=
  ["0"; "1"; "2"; "3"; "4"; "5"; "6"; "7";
   "8"; "9"; "a"; "b"; "c"; "d"; "e"; "f"]%char.

Definition hex_digit (n : N) : ascii :=
  nth (N.to_nat (n mod 16)) hex_digits "0"%char.

(** The [len] low-order hexadecimal digits of [d], most significant first. *)
Fixpoint hex_text (len : nat) (d : N) : string :=
  match len with
  | O => EmptyString
  | S k => String (hex_digit (d / 16 ^ N.of_nat k)) (hex_text k d)
  end.

(** [MD5(gen_random_uuid()::text)]: the text of a 128-bit digest, 32 lower
    case hexadecimal digits.  The random uuid and the hash are the backend's;
    a call is represented by the digest it yields. *)
Definition MD5_text (digest : N) : string := hex_text 32 digest.

Definition upper_ascii (c : ascii) : ascii :=
  let n := nat_of_ascii c in
  if (97 <=? n)%nat && (n <=? 122)%nat then ascii_of_nat (n - 32) else c.

Fixpoint UPPER (s : string) : string :=
  match s with
  | EmptyString => EmptyString
  | String c t => String (upper_ascii c) (UPPER t)
  end.

(** [SUBSTRING(s FROM from FOR count)], positions counted from 1. *)
Definition SUBSTRING (s : string) (from count : nat) : string :=
  substring (from - 1) count s.

(** The value assigned by [public.generate_tracking_code()]:
    ['SC-' || UPPER(SUBSTRING(MD5(gen_random_uuid()::text) FROM 1 FOR 8))]. *)
Definition tracking_code_of (digest : N) : string :=
  ("SC-" ++ UPPER (SUBSTRING (MD5_text digest) 1 8))%string.

Definition with_tracking_code (code : string) (r : Req.row) : Req.row :=
  Req.mk (Req.id r) code (Req.requester_name r) (Req.requester_phone r)
    (Req.emergency_type r) (Req.description r) (Req.location_lat r)
    (Req.location_lng r) (Req.location_address r) (Req.status r)
    (Req.assigned_ambulance_id r) (Req.assigned_driver_id r)
    (Req.created_at r) (Req.updated_at r) (Req.completed_at r).

(** [public.generate_tracking_code()], the BEFORE INSERT trigger function. *)
Definition generate_tracking_code (digest : N) (NEW : Req.row) : Req.row :=
  with_tracking_code (tracking_code_of digest) NEW.

(** The format [SC-[A-Z0-9]{8}]. *)
Definition upper_alnum (c : ascii) : bool :=
  let n := nat_of_ascii c in
  ((48 <=? n)%nat && (n <=? 57)%nat) || ((65 <=? n)%nat && (n <=? 90)%nat).

Fixpoint string_forallb (p : ascii -> bool) (s : string) : bool :=
  match s with
  | EmptyString => true
  | String c t => p c && string_forallb p t
  end.

Definition tracking_code_format (s : string) : bool :=
  match s with
  | String "S" (String "C" (String "-" t)) =>
    (String.length t =? 8)%nat && string_forallb upper_alnum t
  | _ => false
  end.

(** ** Statements against the backend *)

Inductive pg_error :=
  | unique_violation
  | foreign_key_violation
  | row_level_security_violation.

Inductive result (A : Type) :=
  | Ok (a : A)
  | Err (e : pg_error).

Arguments Ok {A} a.
Arguments Err {A} e.

(** [public.has_role(_user_id, _role)]; [auth.uid()] is NULL for an
    anonymous session. *)
Definition has_role (s : db) (uid : option uuid) (role : app_role) : bool :=
  match uid with
  | None => false
  | Some u =>
    existsb (fun ur => N.eqb (fst ur) u && app_role_eqb (snd ur) role)
            (user_roles s)
  end.

(** The permissive UPDATE policies of [emergency_requests], or-ed:
    "Assigned drivers can update requests" and "Admins can manage requests". *)
Definition requests_update_policy (s : db) (uid : option uuid) (r : Req.row)
  : bool :=
  sql_eq (Req.assigned_driver_id r) uid || has_role s uid admin.

(** The permissive UPDATE policies of [ambulances], or-ed:
    "Drivers can update own ambulance" and "Admins can manage ambulances". *)
Definition ambulances_update_policy (s : db) (uid : option uuid) (a : Amb.row)
  : bool :=
  sql_eq (Amb.driver_id a) uid || has_role s uid admin.

(** An UPDATE under row-level security.  A row takes part when it matches
    the WHERE clause and the USING policy shows it; the other rows are
    skipped without an error.  A written row must pass [violated] (WITH
    CHECK and the constraints), or the whole statement fails. *)
Fixpoint rls_update {row : Type} (where_ visible : row -> bool)
  (assign : row -> row) (violated : row -> option pg_error) (tbl : list row)
  : result (list row) :=
  match tbl with
  | [] => Ok []
  | r :: rest =>
    if where_ r && visible r then
      match violated (assign r) with
      | Some e => Err e
      | None =>
        match rls_update where_ visible assign violated rest with
        | Ok rest' => Ok (assign r :: rest')
        | Err e => Err e
        end
      end
    else
      match rls_update where_ visible assign violated rest with
      | Ok rest' => Ok (r :: rest')
      | Err e => Err e
      end
  end.

(** [assigned_ambulance_id UUID REFERENCES public.ambulances(id)]. *)
Definition ambulance_fk_ok (s : db) (r : Req.row) : bool :=
  match Req.assigned_ambulance_id r with
  | None => true
  | Some aid => existsb (fun a => N.eqb (Amb.id a) aid) (ambulances s)
  end.

(** What can stop a written request row: the WITH CHECK of the policies
    (the USING expression, since the policies give no other), and the
    foreign key when the statement writes the referencing column. *)
Definition request_violation (s : db) (uid : option uuid) (p : Req.patch)
  (r : Req.row) : option pg_error :=
  if negb (requests_update_policy s uid r)
  then Some row_level_security_violation
  else if negb (is_null (Req.set_assigned_ambulance_id p))
          && negb (ambulance_fk_ok s r)
  then Some foreign_key_violation
  else None.

Definition ambulance_violation (s : db) (uid : option uuid) (a : Amb.row)
  : option pg_error :=
  if negb (ambulances_update_policy s uid a) then Some row_level_security_violation
  else None.

(** [supabase.from('emergency_requests').update(p).eq('id', target)] in the
    session of [uid]. *)
Definition update_emergency_requests (s : db) (uid : option uuid)
  (target : uuid) (p : Req.patch) (now : timestamptz) : result (list Req.row) :=
  rls_update (fun r => N.eqb (Req.id r) target)
             (requests_update_policy s uid)
             (Req.apply p now)
             (request_violation s uid p)
             (emergency_requests s).

(** [supabase.from('ambulances').update(p).eq('id', target)] in the session
    of [uid]. *)
Definition update_ambulances (s : db) (uid : option uuid)
  (target : uuid) (p : Amb.patch) (now : timestamptz) : result (list Amb.row) :=
  rls_update (fun a => N.eqb (Amb.id a) target)
             (ambulances_update_policy s uid)
             (Amb.apply p now)
             (ambulance_violation s uid)
             (ambulances s).

Definition with_ambulances (tbl : list Amb.row) (s : db) : db :=
  mk_db tbl (emergency_requests s) (user_roles s).

Definition with_emergency_requests (tbl : list Req.row) (s : db) : db :=
  mk_db (ambulances s) tbl (user_roles s).

(** A client ignores the outcome of a statement whose [error] it does not
    read: the table moves only when the statement went through. *)
Definition ambulances_after (res : result (list Amb.row)) (s : db) : db :=
  match res with
  | Ok tbl => with_ambulances tbl s
  | Err _ => s
  end.

(** ** Request creation *)

(** The columns an INSERT into [emergency_requests] supplies.  The request
    form never supplies [tracking_code]; the column default is ['TEMP']. *)
Record insert_columns := mk_insert {
  ins_tracking_code : option string;
  ins_requester_name : option string;
  ins_requester_phone : string;
  ins_emergency_type : string;
  ins_description : option string;
  ins_location_address : option string;
  ins_location_lat : Q;
  ins_location_lng : Q
}.

(** NEW as the BEFORE INSERT triggers receive it: the supplied columns and
    the column defaults ([new_id] is the [gen_random_uuid()] of the key). *)
Definition NEW_of (new_id : uuid) (now : timestamptz) (c : insert_columns)
  : Req.row :=
  Req.mk new_id
    (match ins_tracking_code c with Some t => t | None => "TEMP"%string end)
    (ins_requester_name c) (ins_requester_phone c) (ins_emergency_type c)
    (ins_description c) (ins_location_lat c) (ins_location_lng c)
    (ins_location_address c)
    Req.pending None None now now None.

(** PRIMARY KEY on [id] and UNIQUE on [tracking_code]. *)
Definition request_key_free (tbl : list Req.row) (r : Req.row) : bool :=
  forallb (fun r0 => negb (N.eqb (Req.id r0) (Req.id r))
                     && negb (String.eqb (Req.tracking_code r0)
                                         (Req.tracking_code r))) tbl.

(** [INSERT INTO emergency_requests]: the BEFORE INSERT triggers fire in
    name order, [set_tracking_code] then [trigger_auto_dispatch]; the row is
    then checked against the keys.  A failed statement leaves no trace, the
    trigger's UPDATE of [ambulances] included. *)
Definition insert_emergency_request (new_id : uuid) (digest : N)
  (now : timestamptz) (c : insert_columns) (s : db) : result db :=
  let NEW := generate_tracking_code digest (NEW_of new_id now c) in
  let '(tbl, NEW) := auto_dispatch_ambulance now (ambulances s) NEW in
  if request_key_free (emergency_requests s) NEW
  then Ok (mk_db tbl (emergency_requests s ++ [NEW]) (user_roles s))
  else Err unique_violation.

(** The fields of the request form after validation. *)
Record form_data := mk_form {
  requesterName : string;
  requesterPhone : string;
  emergencyType : string;
  description : string;
  locationAddress : string;
  locationLat : Q;
  locationLng : Q
}.

(** JavaScript [x || null] on a string. *)
Definition or_null (x : string) : option string :=
  match x with EmptyString => None | _ => Some x end.

(** The INSERT of [handleSubmit]. *)
Definition handleSubmit_columns (f : form_data) : insert_columns :=
  mk_insert None
    (or_null (requesterName f)) (requesterPhone f) (emergencyType f)
    (or_null (description f)) (or_null (locationAddress f))
    (locationLat f) (locationLng f).

Definition handleSubmit (new_id : uuid) (digest : N) (now : timestamptz)
  (f : form_data) (s : db) : result db :=
  insert_emergency_request new_id digest now (handleSubmit_columns f) s.

(** ** Client-side helpers *)

Inductive toast :=
  | toast_error (msg : string)
  | toast_error_message (e : pg_error)
  | toast_success (msg : string).

(** [.single()]: data only when the query yields exactly one row. *)
Definition single {A : Type} (rows : list A) : option A :=
  match rows with
  | [x] => Some x
  | _ => None
  end.

(** [.order(...)]: a stable insertion sort; [before x y] says that [x] may
    stay in front of [y]. *)
Fixpoint insert_sorted {A : Type} (before : A -> A -> bool) (x : A)
  (l : list A) : list A :=
  match l with
  | [] => [x]
  | y :: t => if before x y then x :: l else y :: insert_sorted before x t
  end.

Definition order_by {A : Type} (before : A -> A -> bool) (l : list A) : list A :=
  fold_right (insert_sorted before) [] l.

Definition created_at_desc (r1 r2 : Req.row) : bool :=
  (Req.created_at r2 <=? Req.created_at r1)%Z.

Definition plate_number_asc (a1 a2 : Amb.row) : bool :=
  String.leb (Amb.plate_number a1) (Amb.plate_number a2).

(** ** The driver dashboard *)
Module DriverDashboard.

(** The React state the handlers read. *)
Record state := mk {
  requests : list Req.row;
  ambulance : option Amb.row
}.

(** The state of a dashboard that has not fetched yet. *)
Definition initial : state := mk [] None.

(** [.in('status', ['assigned', 'en_route', 'arrived'])] *)
Definition listed_status (s : Req.status_t) : bool :=
  match s with
  | Req.assigned | Req.en_route | Req.arrived => true
  | _ => false
  end.

(** [fetchData]: the driver's ambulance (kept from the previous fetch when
    [.single()] gives no data) and the driver's open requests, newest
    first.  Every row is visible to SELECT. *)
Definition fetchData (user : option uuid) (prev : state) (s : db) : state :=
  match user with
  | None => prev
  | Some _ =>
    mk (order_by created_at_desc
          (filter (fun r => sql_eq (Req.assigned_driver_id r) user
                            && listed_status (Req.status r))
                  (emergency_requests s)))
       (match single (filter (fun a => sql_eq (Amb.driver_id a) user)
                             (ambulances s)) with
        | Some ambData => Some ambData
        | None => ambulance prev
        end)
  end.

(** The [ambStatus] computed from [newStatus]. *)
Definition ambStatus (newStatus : Req.status_t) : Amb.status_t :=
  match newStatus with
  | Req.completed => Amb.available
  | Req.en_route => Amb.en_route
  | Req.arrived => Amb.arrived
  | _ => Amb.busy
  end.

(** The [updateData] object sent to [ambulances]. *)
Definition updateData (newStatus : Req.status_t) (request : option Req.row)
  : Amb.patch :=
  match newStatus, request with
  | Req.arrived, Some rq =>
    Amb.mk_patch None (Some (ambStatus newStatus))
      (Some (Some (Req.location_lat rq))) (Some (Some (Req.location_lng rq)))
  | _, _ => Amb.mk_patch None (Some (ambStatus newStatus)) None None
  end.

(** The object sent to [emergency_requests]: [status], and [completed_at]
    set to the time of the call or to null. *)
Definition status_patch (newStatus : Req.status_t) (now : timestamptz)
  : Req.patch :=
  Req.mk_patch (Some newStatus) None None
    (Some (if Req.status_eqb newStatus Req.completed then Some now else None)).

(** [updateRequestStatus(requestId, newStatus)] in the session of [uid], on
    the dashboard state [st], at time [now]. *)
Definition updateRequestStatus (uid : option uuid) (st : state)
  (now : timestamptz) (requestId : uuid) (newStatus : Req.status_t) (s : db)
  : db * toast :=
  let request := find (fun r => N.eqb (Req.id r) requestId) (requests st) in
  match update_emergency_requests s uid requestId (status_patch newStatus now) now with
  | Err _ => (s, toast_error "Failed to update status")
  | Ok tbl =>
    let s1 := with_emergency_requests tbl s in
    let s2 :=
      match ambulance st with
      | Some amb =>
        ambulances_after
          (update_ambulances s1 uid (Amb.id amb) (updateData newStatus request) now)
          s1
      | None => s1
      end in
    (s2, toast_success "Status updated")
  end.

End DriverDashboard.

(** ** The admin dashboard *)
Module AdminDashboard.

(** The table, as opposed to the [ambulances] of the React state below. *)
Local Abbreviation table_ambulances := ambulances (only parsing).

Record state := mk {
  requests : list Req.row;
  ambulances : list Amb.row
}.

(** [fetchData]: the 50 newest requests and the fleet by plate number. *)
Definition fetchData (s : db) : state :=
  mk (firstn 50 (order_by created_at_desc (emergency_requests s)))
     (order_by plate_number_asc (table_ambulances s)).

Definition availableAmbulances (st : state) : list Amb.row :=
  filter (fun a => Amb.status_eqb (Amb.status a) Amb.available) (ambulances st).

Definition assign_patch (ambulanceId : uuid) (driver : option uuid) : Req.patch :=
  Req.mk_patch (Some Req.assigned) (Some (Some ambulanceId)) (Some driver) None.

(** JavaScript [x?.f] on a possibly undefined object. *)
Definition optional_chain {A B : Type} (x : option A) (f : A -> option B)
  : option B :=
  match x with Some v => f v | None => None end.

(** [assignAmbulance(requestId, ambulanceId)] in the session of [uid]. *)
Definition assignAmbulance (uid : option uuid) (st : state) (now : timestamptz)
  (requestId ambulanceId : uuid) (s : db) : db * toast :=
  let ambulance := find (fun a => N.eqb (Amb.id a) ambulanceId) (ambulances st) in
  match optional_chain ambulance Amb.driver_id with
  | None => (s, toast_error "Ambulance has no assigned driver")
  | Some ambulance_driver_id =>
    match update_emergency_requests s uid requestId
            (assign_patch ambulanceId (Some ambulance_driver_id)) now with
    | Err _ => (s, toast_error "Failed to assign ambulance")
    | Ok tbl =>
      let s1 := with_emergency_requests tbl s in
      (ambulances_after (update_ambulances s1 uid ambulanceId busy_patch now) s1,
       toast_success "Ambulance assigned")
    end
  end.

(** [assignDriverToAmbulance(ambulanceId, driverId)]; the "No driver" entry
    of the select sends the empty string, stored as null: here [None]. *)
Definition assignDriverToAmbulance (uid : option uuid) (now : timestamptz)
  (ambulanceId : uuid) (driverId : option uuid) (s : db) : db * toast :=
  match update_ambulances s uid ambulanceId
          (Amb.mk_patch (Some driverId) None None None) now with
  | Err _ => (s, toast_error "Failed to assign driver")
  | Ok tbl => (with_ambulances tbl s, toast_success "Driver assigned")
  end.

(** White space, as [trim] sees it in ASCII text. *)
Definition is_space (c : ascii) : bool :=
  let n := nat_of_ascii c in
  ((9 <=? n)%nat && (n <=? 13)%nat) || (n =? 32)%nat.

(** PRIMARY KEY on [id] and UNIQUE on [plate_number]. *)
Definition ambulance_key_free (tbl : list Amb.row) (a : Amb.row) : bool :=
  forallb (fun a0 => negb (N.eqb (Amb.id a0) (Amb.id a))
                     && negb (String.eqb (Amb.plate_number a0)
                                         (Amb.plate_number a))) tbl.

(** [createAmbulance()]: inserts [{ plate_number }], every other column at
    its default.  Only "Admins can manage ambulances" admits an INSERT. *)
Definition createAmbulance (uid : option uuid) (new_id : uuid)
  (now : timestamptz) (newPlateNumber : string) (s : db) : db * toast :=
  if string_forallb is_space newPlateNumber
  then (s, toast_error "Please enter plate number")
  else
    let a := Amb.mk new_id None (UPPER newPlateNumber) Amb.available
                    None None now now None None in
    if negb (has_role s uid admin)
    then (s, toast_error_message row_level_security_violation)
    else if negb (ambulance_key_free (table_ambulances s) a)
    then (s, toast_error_message unique_violation)
    else (with_ambulances (table_ambulances s ++ [a]) s,
          toast_success "Ambulance added").

End AdminDashboard.

(** ** Operations and reachable states *)

(** A call of one of the writers of the application, with everything it
    reads besides the database: the session, the React state of the
    dashboard it runs on, the clock, the random values of the backend. *)
Inductive operation :=
  | Submit (new_id : uuid) (digest : N) (now : timestamptz) (f : form_data)
  | UpdateRequestStatus (uid : option uuid) (st : DriverDashboard.state)
      (now : timestamptz) (requestId : uuid) (newStatus : Req.status_t)
  | AssignAmbulance (uid : option uuid) (st : AdminDashboard.state)
      (now : timestamptz) (requestId ambulanceId : uuid)
  | AssignDriverToAmbulance (uid : option uuid) (now : timestamptz)
      (ambulanceId : uuid) (driverId : option uuid)
  | CreateAmbulance (uid : option uuid) (new_id : uuid) (now : timestamptz)
      (newPlateNumber : string).

Definition run (op : operation) (s : db) : db :=
  match op with
  | Submit new_id digest now f =>
    match handleSubmit new_id digest now f s with
    | Ok s' => s'
    | Err _ => s
    end
  | UpdateRequestStatus uid st now requestId newStatus =>
    fst (DriverDashboard.updateRequestStatus uid st now requestId newStatus s)
  | AssignAmbulance uid st now requestId ambulanceId =>
    fst (AdminDashboard.assignAmbulance uid st now requestId ambulanceId s)
  | AssignDriverToAmbulance uid now ambulanceId driverId =>
    fst (AdminDashboard.assignDriverToAmbulance uid now ambulanceId driverId s)
  | CreateAmbulance uid new_id now newPlateNumber =>
    fst (AdminDashboard.createAmbulance uid new_id now newPlateNumber s)
  end.

(** A database before the first request: any fleet, any roles. *)
Definition initial_db (s : db) : Prop :=
  emergency_requests s = [] /\ NoDup (map Amb.id (ambulances s)).

(** The states the writers can produce, whatever their arguments and
    whatever dashboard state they run on. *)
Inductive reachable : db -> Prop :=
  | reachable_initial s : initial_db s -> reachable s
  | reachable_run s op : reachable s -> reachable (run op s).

(** What the pages offer on a dashboard that has just fetched:
    - the request form;
    - the status select of a request card of the driver dashboard, with its
      three items;
    - the "Assign ambulance" select, rendered for the pending requests of
      the admin dashboard, with one item per available ambulance. *)
Inductive ui_operation :=
  | UiSubmit (new_id : uuid) (digest : N) (now : timestamptz) (f : form_data)
  | UiStatusSelect (user : uuid) (now : timestamptz) (requestId : uuid)
      (newStatus : Req.status_t)
  | UiAssignSelect (user : uuid) (now : timestamptz)
      (requestId ambulanceId : uuid).

(** [<SelectItem value="en_route">], ["arrived"], ["completed"]. *)
Definition select_item (newStatus : Req.status_t) : bool :=
  match newStatus with
  | Req.en_route | Req.arrived | Req.completed => true
  | _ => false
  end.

Definition ui_offered (op : ui_operation) (s : db) : bool :=
  match op with
  | UiSubmit _ _ _ _ => true
  | UiStatusSelect user _ requestId newStatus =>
    existsb (fun r => N.eqb (Req.id r) requestId)
      (DriverDashboard.requests
         (DriverDashboard.fetchData (Some user) DriverDashboard.initial s))
    && select_item newStatus
  | UiAssignSelect user _ requestId ambulanceId =>
    has_role s (Some user) admin
    && existsb (fun r => N.eqb (Req.id r) requestId
                         && Req.status_eqb (Req.status r) Req.pending)
         (AdminDashboard.requests (AdminDashboard.fetchData s))
    && existsb (fun a => N.eqb (Amb.id a) ambulanceId)
         (AdminDashboard.availableAmbulances (AdminDashboard.fetchData s))
  end.

(** The call behind a gesture, on the freshly fetched state. *)
Definition ui_call (op : ui_operation) (s : db) : operation :=
  match op with
  | UiSubmit new_id digest now f => Submit new_id digest now f
  | UiStatusSelect user now requestId newStatus =>
    UpdateRequestStatus (Some user)
      (DriverDashboard.fetchData (Some user) DriverDashboard.initial s)
      now requestId newStatus
  | UiAssignSelect user now requestId ambulanceId =>
    AssignAmbulance (Some user) (AdminDashboard.fetchData s)
      now requestId ambulanceId
  end.

Definition ui_run (op : ui_operation) (s : db) : db := run (ui_call op s) s.

Inductive ui_reachable : db -> Prop :=
  | ui_reachable_initial s : initial_db s -> ui_reachable s
  | ui_reachable_run s op :
      ui_reachable s -> ui_offered op s = true -> ui_reachable (ui_run op s).

(** The requests that hold ambulance [aid]: not completed, not cancelled,
    and assigned to it. *)
Definition holds (aid : uuid) (r : Req.row) : bool :=
  Req.active r && sql_eq (Req.assigned_ambulance_id r) (Some aid).

Definition active_assignments (aid : uuid) (s : db) : nat :=
  List.length (filter (holds aid) (emergency_requests s)).

(** [assigned_ambulance_id] and [assigned_driver_id] null together. *)
Definition both_or_none (r : Req.row) : bool :=
  Bool.eqb (is_null (Req.assigned_ambulance_id r))
           (is_null (Req.assigned_driver_id r)).

(** ** The geo-distance utility *)

Local Open Scope R_scope.

(** [Math.atan2(y, x)] on real numbers. *)
Definition atan2 (y x : R) : R :=
  if Rlt_dec 0 x then atan (y / x)
  else if Rlt_dec x 0 then
    (if Rle_dec 0 y then atan (y / x) + PI else atan (y / x) - PI)
  else if Rlt_dec 0 y then PI / 2
  else if Rlt_dec y 0 then - (PI / 2)
  else 0.

(** [calculateDistance(lat1, lng1, lat2, lng2)]: the haversine distance in
    kilometres, on real numbers. *)
Definition calculateDistance (lat1 lng1 lat2 lng2 : R) : R :=
  let R_earth := 6371 in
  let dLat := (lat2 - lat1) * PI / 180 in
  let dLng := (lng2 - lng1) * PI / 180 in
  let a :=
    sin (dLat / 2) * sin (dLat / 2) +
    cos (lat1 * PI / 180) * cos (lat2 * PI / 180) *
    sin (dLng / 2) * sin (dLng / 2) in
  let c := 2 * atan2 (sqrt a) (sqrt (1 - a)) in
  R_earth * c.


Local Close Scope R_scope.

(** ** Worked states *)

(** The row with other current coordinates. *)
Definition locate (lat lng : option Q) (a : Amb.row) : Amb.row :=
  Amb.mk (Amb.id a) (Amb.driver_id a) (Amb.plate_number a) (Amb.status a)
    lat lng (Amb.created_at a) (Amb.updated_at a) (Amb.base_lat a) (Amb.base_lng a).


(** Scenario A of the specification: two available ambulances with
    drivers 1 and 2, and a request next to the first. *)
Definition amb_1 : Amb.row :=
  Amb.mk 101 (Some 1%N) "ABJ-001-SC" Amb.available
    (Some 9.08%Q) (Some 7.40%Q) 0 0 (Some 9.08%Q) (Some 7.40%Q).

Definition amb_2 : Amb.row :=
  Amb.mk 102 (Some 2%N) "ABJ-002-SC" Amb.available
    (Some 9.00%Q) (Some 7.50%Q) 0 0 (Some 9.00%Q) (Some 7.50%Q).

Definition scenario_A_fleet : list Amb.row := [amb_1; amb_2].

Definition scenario_A_NEW : Req.row :=
  Req.mk 201 "TEMP" None "08012345678" "Medical Emergency" None
    9.081 7.401 None Req.pending None None 10 10 None.

(** A request that is already assigned to the first ambulance. *)
Definition assigned_NEW : Req.row :=
  Req.mk 202 "SC-0A1B2C3D" None "08012345678" "Burns" None
    9.081 7.401 None Req.assigned (Some 101%N) (Some 1%N) 10 10 None.

(** Scenario C of the specification: a request assigned to ambulance 102
    and its driver 2, while driver 1 sits available in ambulance 101.
    User 9 is the administrator. *)
Definition amb_2_busy : Amb.row :=
  Amb.mk 102 (Some 2%N) "ABJ-002-SC" Amb.busy
    (Some 9.00%Q) (Some 7.50%Q) 0 20 (Some 9.00%Q) (Some 7.50%Q).

Definition req_C : Req.row :=
  Req.mk 203 "SC-1F2E3D4C" None "08012345678" "Cardiac Emergency" None
    9.03%Q 7.49%Q None Req.assigned (Some 102%N) (Some 2%N) 20 20 None.

Definition roles : list (uuid * app_role) :=
  [(9%N, admin); (1%N, driver); (2%N, driver)].

Definition scenario_C_db : db := mk_db [amb_1; amb_2_busy] [req_C] roles.

(** The dashboard of driver 1, freshly fetched in Scenario C. *)
Definition scenario_C_dashboard_1 : DriverDashboard.state :=
  DriverDashboard.fetchData (Some 1%N) DriverDashboard.initial scenario_C_db.


(** Scenario D of the specification: driver 1 is on a trip with ambulance
    101, which has left its base station. *)
Definition amb_1_busy : Amb.row :=
  Amb.mk 101 (Some 1%N) "ABJ-001-SC" Amb.busy
    (Some 9.08%Q) (Some 7.40%Q) 0 20 (Some 9.0765%Q) (Some 7.3986%Q).

Definition req_D : Req.row :=
  Req.mk 204 "SC-9A8B7C6D" None "08012345678" "Accident/Trauma" None
    9.081%Q 7.401%Q None Req.assigned (Some 101%N) (Some 1%N) 20 20 None.

Definition scenario_D_db : db := mk_db [amb_1_busy; amb_2] [req_D] roles.


(** ** The invariant of the pages *)

(** A request that names an ambulance names a row of the fleet, and its
    driver is the driver of that row. *)
Definition linked (s : db) : Prop :=
  forall r aid,
    In r (emergency_requests s) ->
    Req.assigned_ambulance_id r = Some aid ->
    exists a, In a (ambulances s) /\ Amb.id a = aid /\
              Amb.driver_id a = Req.assigned_driver_id r /\
              Req.assigned_driver_id r <> None.

(** Only pending requests are without an ambulance. *)
Definition unassigned_pending (s : db) : Prop :=
  forall r,
    In r (emergency_requests s) ->
    Req.assigned_ambulance_id r = None -> Req.status r = Req.pending.

(** No two open requests hold the same ambulance. *)
Definition one_holder (s : db) : Prop :=
  forall aid r1 r2,
    In r1 (emergency_requests s) -> In r2 (emergency_requests s) ->
    holds aid r1 = true -> holds aid r2 = true -> r1 = r2.

(** No open request holds an available ambulance. *)
Definition available_free (s : db) : Prop :=
  forall a r,
    In a (ambulances s) -> In r (emergency_requests s) ->
    Amb.status a = Amb.available -> holds (Amb.id a) r = false.

Definition ui_invariant (s : db) : Prop :=
  NoDup (map Amb.id (ambulances s)) /\
  NoDup (map Req.id (emergency_requests s)) /\
  linked s /\ unassigned_pending s /\ one_holder s /\ available_free s.

(** Any number of gestures, each offered in the state it is made in. *)
Inductive ui_steps : db -> db -> Prop :=
  | ui_steps_refl s : ui_steps s s
  | ui_steps_run s op s' :
      ui_offered op s = true -> ui_steps (ui_run op s) s' -> ui_steps s s'.


(** ** Worked traces *)

Definition form_A : form_data :=
  mk_form "" "08012345678" "Medical Emergency" "" "" 9.081%Q 7.401%Q.

Definition scenario_A_db : db := mk_db scenario_A_fleet [] roles.

(** Scenario A: the request form is submitted over the two ambulances. *)
Definition scenario_A_after : db :=
  run (Submit 201 (N.shiftl 1 96) 20 form_A) scenario_A_db.

(** A trace over a one-ambulance fleet.  Request 301 takes the ambulance,
    request 302 finds none and stays pending, the driver completes 301.  The
    administrator's dashboard then fetches; before the administrator picks
    anything, request 303 arrives and takes the ambulance.  The
    administrator, still looking at the earlier fetch, assigns the same
    ambulance to 302. *)
Definition race_db0 : db := mk_db [amb_1] [] roles.

Definition race_db1 : db :=
  run (Submit 301 (N.shiftl 1 96) 10 form_A) race_db0.

Definition race_db2 : db :=
  run (Submit 302 (N.shiftl 2 96) 11 form_A) race_db1.

Definition race_db3 : db :=
  run (UpdateRequestStatus (Some 1%N)
         (DriverDashboard.fetchData (Some 1%N) DriverDashboard.initial race_db2)
         12 301 Req.completed) race_db2.

Definition race_admin_view : AdminDashboard.state :=
  AdminDashboard.fetchData race_db3.

Definition race_db4 : db :=
  run (Submit 303 (N.shiftl 3 96) 13 form_A) race_db3.

Definition race_db5 : db :=
  run (AssignAmbulance (Some 9%N) race_admin_view 14 302 101) race_db4.

(** A trace in which the driver of request 201 completes it and then, from
    a dashboard that still shows the request, selects [en_route]. *)
Definition reopen_view : DriverDashboard.state :=
  DriverDashboard.fetchData (Some 1%N) DriverDashboard.initial scenario_A_after.

Definition reopen_db1 : db :=
  run (UpdateRequestStatus (Some 1%N) reopen_view 30 201 Req.completed)
      scenario_A_after.

Definition reopen_db2 : db :=
  run (UpdateRequestStatus (Some 1%N) reopen_view 31 201 Req.en_route)
      reopen_db1.


(** What identifies a request to the public: its id and tracking code. *)
Definition identity (r : Req.row) : uuid * string :=
  (Req.id r, Req.tracking_code r).

(** An INSERT that supplies a tracking code of its own. *)
Definition columns_with_code : insert_columns :=
  mk_insert (Some "SC-MINE0000"%string) None "08012345678" "Burns" None None
    9.05%Q 7.45%Q.







(** ** The remaining readers and writers *)

(** [String.prototype.trim] on ASCII text: white space goes from both
    ends. *)
Fixpoint drop_spaces (l : list ascii) : list ascii :=
  match l with
  | [] => []
  | c :: t => if AdminDashboard.is_space c then drop_spaces t else l
  end.

Definition trim (s : string) : string :=
  string_of_list_ascii
    (rev (drop_spaces (rev (drop_spaces (list_ascii_of_string s))))).

(** [Math.round] on an exact number: the nearest integer, a tie going up. *)
Definition Math_round (x : Q) : Z := Qfloor (x + (1 # 2))%Q.


(** The tracking page. *)
Module TrackRequest.

Record state := mk {
  request : option Req.row;
  ambulanceInfo : option string
}.

(** [fetchAmbulanceInfo(ambulanceId)]: the plate number of the row with
    that id; the state stays as it is when [.single()] gives no data. *)
Definition fetchAmbulanceInfo (ambulanceId : uuid) (st : state) (s : db)
  : state :=
  match single (filter (fun a => N.eqb (Amb.id a) ambulanceId) (ambulances s)) with
  | Some ambData => mk (request st) (Some (Amb.plate_number ambData))
  | None => st
  end.

(** [fetchRequest(code)]: the one request whose tracking code is the
    upper-cased [code], with the plate of its ambulance when it has one;
    "Request not found" clears the state. *)
Definition fetchRequest (code : string) (st : state) (s : db) : state :=
  match single (filter (fun r => String.eqb (Req.tracking_code r) (UPPER code))
                       (emergency_requests s)) with
  | None => mk None None
  | Some reqData =>
    match Req.assigned_ambulance_id reqData with
    | Some ambulanceId =>
      fetchAmbulanceInfo ambulanceId (mk (Some reqData) (ambulanceInfo st)) s
    | None => mk (Some reqData) None
    end
  end.

(** [handleSearch]: nothing happens on a blank search box. *)
Definition handleSearch (searchCode : string) (st : state) (s : db) : state :=
  match trim searchCode with
  | EmptyString => st
  | code => fetchRequest code st s
  end.

End TrackRequest.

(** The request form with its validation. *)
Module RequestForm.




End RequestForm.

(** The migration that adds the base station columns: the new columns
    start null, every ambulance but ABJ-003-SC takes its current
    coordinates as base, and ABJ-003-SC is put back at its station.  The two
    UPDATEs run as the owner and fire the [updated_at] trigger. *)
Definition with_base (base_lat base_lng : option Q) (a : Amb.row) : Amb.row :=
  Amb.mk (Amb.id a) (Amb.driver_id a) (Amb.plate_number a) (Amb.status a)
    (Amb.current_lat a) (Amb.current_lng a) (Amb.created_at a) (Amb.updated_at a)
    base_lat base_lng.

Definition touch (now : timestamptz) (a : Amb.row) : Amb.row :=
  Amb.apply (Amb.mk_patch None None None None) now a.

Definition add_base_station_columns (now : timestamptz) (tbl : list Amb.row)
  : list Amb.row :=
  let added := map (with_base None None) tbl in
  let populated :=
    map (fun a => if negb (String.eqb (Amb.plate_number a) "ABJ-003-SC")
                  then touch now (with_base (Amb.current_lat a) (Amb.current_lng a) a)
                  else a) added in
  map (fun a => if String.eqb (Amb.plate_number a) "ABJ-003-SC"
                then touch now
                       (with_base (Some 9.0820%Q) (Some 7.5350%Q)
                          (locate (Some 9.0820%Q) (Some 7.5350%Q) a))
                else a) populated.





(** JavaScript [x || d] on a nullable number: null and zero both give
    [d]. *)
Definition js_or (x : option Q) (d : Q) : Q :=
  match x with
  | Some v => if Qeq_bool v 0 then d else v
  | None => d
  end.

(** The marker of an ambulance on the fleet map of the admin dashboard:
    [lat: amb.current_lat || 9.0579, lng: amb.current_lng || 7.4951]. *)
Definition fleet_marker (amb : Amb.row) : Q * Q :=
  (js_or (Amb.current_lat amb) 9.0579, js_or (Amb.current_lng amb) 7.4951).

(** What stays of an ambulance for good: key, plate and base station. *)
Definition registration (a : Amb.row)
  : uuid * string * option Q * option Q :=
  (Amb.id a, Amb.plate_number a, Amb.base_lat a, Amb.base_lng a).

(** Where an ambulance is. *)
Definition position (a : Amb.row) : option Q * option Q :=
  (Amb.current_lat a, Amb.current_lng a).

(** The lifecycle columns of a request agree: [completed_at] is set
    exactly on completed requests, an ambulance is missing exactly on
    pending ones. *)
Definition lifecycle_consistent (r : Req.row) : Prop :=
  (Req.completed_at r <> None <-> Req.status r = Req.completed) /\
  (Req.assigned_ambulance_id r = None <-> Req.status r = Req.pending).



(** Any number of calls of the writers, one after the other. *)
Definition run_all (ops : list operation) (s : db) : db :=
  fold_left (fun s' op => run op s') ops s.

(** A registration without a base station. *)
Definition no_base (g : uuid * string * option Q * option Q) : Prop :=
  snd (fst g) = None /\ snd g = None.

(** [x] was created after [r]. *)
Definition newer_than (r x : Req.row) : bool :=
  (Req.created_at r <? Req.created_at x)%Z.

(** Fifty-one requests over an empty fleet, submitted one a second. *)
Definition crowded_db : db :=
  fold_left (fun s i => ui_run (UiSubmit (N.of_nat i) (N.shiftl (N.of_nat i) 96)
                                         (Z.of_nat i) form_A) s)
            (seq 1 51) (mk_db [] [] roles).


(** The trip history of the driver dashboard. *)
Module DriverRequestHistory.

(** [.order('completed_at', { ascending: false })]: a descending order
    puts the nulls first. *)
Definition completed_at_desc (r1 r2 : Req.row) : bool :=
  match Req.completed_at r1, Req.completed_at r2 with
  | None, _ => true
  | Some _, None => false
  | Some c1, Some c2 => (c2 <=? c1)%Z
  end.

(** [fetchHistory]: the fifty completed requests of the driver that were
    completed last. *)
Definition fetchHistory (userId : uuid) (s : db) : list Req.row :=
  firstn 50
    (order_by completed_at_desc
       (filter (fun r => sql_eq (Req.assigned_driver_id r) (Some userId)
                         && Req.status_eqb (Req.status r) Req.completed)
               (emergency_requests s))).

(** What [getDuration] prints: ["m min"] or ["h h m m"]. *)
Inductive duration :=
  | min (mins : Z)
  | h_m (hrs remainMins : Z).

(** [getDuration(created, completed)], with the timestamps in milliseconds
    as [getTime()] gives them; [%] is the remainder that takes the sign of
    the dividend. *)
Definition getDuration (created : timestamptz) (completed : option timestamptz)
  : option duration :=
  match completed with
  | None => None
  | Some c =>
    let mins := Math_round (inject_Z (c - created) / 60000)%Q in
    Some (if (mins <? 60)%Z then min mins
          else h_m (mins / 60)%Z (Z.rem mins 60))
  end.

End DriverRequestHistory.

(* ------------------------------------------------------------------ *)
(** * Properties *)

(** ** Dispatch *)

Lemma status_eqb_pending (st : Req.status_t) :
  Req.status_eqb st Req.pending = true <-> st = Req.pending.
Proof. destruct st; simpl; split; congruence. Qed.

Lemma is_null_true {A : Type} (x : option A) : is_null x = true <-> x = None.
Proof. destruct x; simpl; split; congruence. Qed.

Lemma Q2R_sq (q : Q) : Q2R (q ^ 2) = (Q2R q ^ 2)%R.
Proof.
  change (q ^ 2)%Q with (q * q)%Q. rewrite Q2R_mult. simpl. ring.
Qed.

(** The radicand of the trigger's distance is the rational [distance_sq]. *)
Lemma distance_radicand (a : Amb.row) (lat lng : Q) :
  distance a lat lng = sqrt (Q2R (distance_sq a lat lng)).
Proof.
  unfold distance, distance_sq.
  rewrite Q2R_plus, !Q2R_sq, !Q2R_minus. reflexivity.
Qed.

Lemma distance_sq_nonneg (a : Amb.row) (lat lng : Q) :
  (0 <= Q2R (distance_sq a lat lng))%R.
Proof.
  unfold distance_sq. rewrite Q2R_plus, !Q2R_sq.
  apply Rplus_le_le_0_compat; apply pow2_ge_0.
Qed.

(** Ordering by the trigger's distance is ordering by the radicand. *)
Lemma distance_le_iff (a b : Amb.row) (lat lng : Q) :
  (distance a lat lng <= distance b lat lng)%R <->
  (distance_sq a lat lng <= distance_sq b lat lng)%Q.
Proof.
  rewrite !distance_radicand. split; intros H.
  - apply Rle_Qle. apply sqrt_le_0; auto using distance_sq_nonneg.
  - apply sqrt_le_1; auto using distance_sq_nonneg. now apply Qle_Rle.
Qed.

(** [ORDER BY distance ASC LIMIT 1]: no row on an empty input, else a row
    of the input that no row of the input beats. *)
Lemma order_by_distance_limit_1_spec (lat lng : Q) (rows : list Amb.row) :
  match order_by_distance_limit_1 lat lng rows with
  | None => rows = []
  | Some a =>
    In a rows /\
    forall b, In b rows -> (distance_sq a lat lng <= distance_sq b lat lng)%Q
  end.
Proof.
  induction rows as [|x rest IH]; simpl; [reflexivity|].
  destruct (order_by_distance_limit_1 lat lng rest) as [m|].
  - destruct IH as [Hin Hmin].
    destruct (Qle_bool (distance_sq x lat lng) (distance_sq m lat lng)) eqn:E.
    + apply Qle_bool_iff in E. split; [now left|].
      intros b [<-|Hb]; [apply Qle_refl|].
      eapply Qle_trans; [exact E|auto].
    + assert (Hlt : (distance_sq m lat lng < distance_sq x lat lng)%Q).
      { apply Qnot_le_lt. intros H. apply Qle_bool_iff in H. congruence. }
      split; [now right|].
      intros b [<-|Hb]; [now apply Qlt_le_weak|auto].
  - subst rest. split; [now left|].
    intros b [<-|[]]. apply Qle_refl.
Qed.

(** The trigger's query: nothing exactly when no ambulance is a candidate,
    else a candidate at least planar distance. *)
Lemma nearest_ambulance_spec (tbl : list Amb.row) (lat lng : Q) :
  match nearest_ambulance tbl lat lng with
  | None => filter candidate tbl = []
  | Some a =>
    In a tbl /\ candidate a = true /\
    forall b, In b tbl -> candidate b = true ->
              (distance a lat lng <= distance b lat lng)%R
  end.
Proof.
  unfold nearest_ambulance.
  pose proof (order_by_distance_limit_1_spec lat lng (filter candidate tbl)) as H.
  destruct (order_by_distance_limit_1 lat lng (filter candidate tbl)) as [a|];
    [|exact H].
  destruct H as [Hin Hmin]. apply filter_In in Hin. destruct Hin as [Hin Hc].
  repeat split; auto.
  intros b Hb Hcb. apply distance_le_iff. apply Hmin.
  apply filter_In. auto.
Qed.

(** C3.  The dispatch function leaves a request that is not pending, or that
    already has an ambulance, exactly as it is, and leaves the ambulance
    table exactly as it is. *)
Theorem auto_dispatch_noop (now : timestamptz) (tbl : list Amb.row)
  (NEW : Req.row) :
  Req.status NEW <> Req.pending \/ Req.assigned_ambulance_id NEW <> None ->
  auto_dispatch_ambulance now tbl NEW = (tbl, NEW).
Proof.
  intros H. unfold auto_dispatch_ambulance.
  destruct (Req.status_eqb (Req.status NEW) Req.pending) eqn:Es; simpl; auto.
  destruct (is_null (Req.assigned_ambulance_id NEW)) eqn:En; auto.
  apply status_eqb_pending in Es. apply is_null_true in En.
  destruct H; contradiction.
Qed.

Lemma auto_dispatch_noop_witness :
  (Req.status assigned_NEW <> Req.pending \/
   Req.assigned_ambulance_id assigned_NEW <> None) /\
  auto_dispatch_ambulance 20 scenario_A_fleet assigned_NEW
  = (scenario_A_fleet, assigned_NEW).
Proof.
  split.
  - left. discriminate.
  - apply auto_dispatch_noop. left. discriminate.
Defined.




(** Scenario A of the specification: the first ambulance is the closer
    one; it is assigned and turns busy. *)
Example scenario_A :
  auto_dispatch_ambulance 20 scenario_A_fleet scenario_A_NEW
  = (update_ambulance_by_id 101 busy_patch 20 scenario_A_fleet,
     assign_NEW amb_1 scenario_A_NEW).
Proof. reflexivity. Qed.

(** Scenario B of the specification: the only ambulance is busy; the
    request stays pending. *)
Example scenario_B :
  auto_dispatch_ambulance 20 [amb_2_busy] scenario_A_NEW
  = ([amb_2_busy], scenario_A_NEW).
Proof. reflexivity. Qed.

(** ** Planar distance against haversine distance *)

Local Open Scope R_scope.














Local Close Scope R_scope.


(** ** Null coordinates *)






(** ** Tracking codes *)

Lemma hex_digit_in (n : N) : In (hex_digit n) hex_digits.
Proof.
  unfold hex_digit. apply nth_In.
  change (List.length hex_digits) with (N.to_nat 16).
  pose proof (N.mod_lt n 16). lia.
Qed.

Lemma hex_digit_upper_alnum (n : N) :
  upper_alnum (upper_ascii (hex_digit n)) = true.
Proof.
  pose proof (hex_digit_in n) as H. unfold hex_digits in H. simpl in H.
  repeat (destruct H as [<-|H]; [reflexivity|]). destruct H.
Qed.

Lemma hex_text_length (len : nat) (d : N) : String.length (hex_text len d) = len.
Proof. induction len; simpl; congruence. Qed.

Lemma hex_text_upper_alnum (len : nat) (d : N) :
  string_forallb (fun c => upper_alnum (upper_ascii c)) (hex_text len d) = true.
Proof.
  induction len as [|k IH]; simpl; [reflexivity|].
  now rewrite hex_digit_upper_alnum, IH.
Qed.

Lemma substring_forallb (p : ascii -> bool) (s : string) :
  string_forallb p s = true ->
  forall n m, string_forallb p (substring n m s) = true.
Proof.
  induction s as [|c s IH]; intros H n m.
  - destruct n, m; reflexivity.
  - simpl in H. apply andb_true_iff in H. destruct H as [Hc Hs].
    destruct n as [|n]; [destruct m as [|m]|]; simpl; auto.
    now rewrite Hc, IH.
Qed.

Lemma substring_0_length (s : string) :
  forall m, (m <= String.length s)%nat -> String.length (substring 0 m s) = m.
Proof.
  induction s as [|c s IH]; intros [|m] H; simpl in *; try lia.
  rewrite IH; lia.
Qed.

Lemma UPPER_length (s : string) : String.length (UPPER s) = String.length s.
Proof. induction s; simpl; congruence. Qed.

Lemma UPPER_forallb (p : ascii -> bool) (s : string) :
  string_forallb p (UPPER s) = string_forallb (fun c => p (upper_ascii c)) s.
Proof. induction s; simpl; congruence. Qed.

(** Every generated code has the shape [SC-[A-Z0-9]{8}]. *)
Lemma tracking_code_of_format (digest : N) :
  tracking_code_format (tracking_code_of digest) = true.
Proof.
  unfold tracking_code_of, SUBSTRING, MD5_text.
  change ("SC-" ++ ?t)%string with (String "S" (String "C" (String "-" t))).
  cbv beta iota delta [tracking_code_format].
  rewrite UPPER_length, UPPER_forallb.
  change (1 - 1)%nat with 0%nat.
  rewrite substring_0_length by (rewrite hex_text_length; lia).
  rewrite substring_forallb by apply hex_text_upper_alnum.
  reflexivity.
Qed.

(** ** Statements under row-level security *)

Lemma rls_update_Ok {row : Type} (w v : row -> bool) (f : row -> row)
  (viol : row -> option pg_error) (tbl tbl' : list row) :
  rls_update w v f viol tbl = Ok tbl' ->
  tbl' = map (fun r => if w r && v r then f r else r) tbl.
Proof.
  revert tbl'. induction tbl as [|r tbl IH]; simpl; intros tbl' H.
  - congruence.
  - destruct (w r && v r).
    + destruct (viol (f r)); [discriminate|].
      destruct (rls_update w v f viol tbl); [|discriminate].
      injection H as <-. f_equal. now apply IH.
    + destruct (rls_update w v f viol tbl); [|discriminate].
      injection H as <-. f_equal. now apply IH.
Qed.

Lemma rls_update_safe {row : Type} (w v : row -> bool) (f : row -> row)
  (viol : row -> option pg_error) (tbl : list row) :
  (forall r, In r tbl -> w r && v r = true -> viol (f r) = None) ->
  rls_update w v f viol tbl
  = Ok (map (fun r => if w r && v r then f r else r) tbl).
Proof.
  induction tbl as [|r tbl IH]; simpl; intros H; [reflexivity|].
  rewrite IH by auto.
  destruct (w r && v r) eqn:E; [|reflexivity].
  rewrite (H r); auto.
Qed.

(** A statement that hits no visible row changes nothing. *)
Lemma map_unless {row : Type} (c : row -> bool) (f : row -> row)
  (tbl : list row) :
  (forall r, In r tbl -> c r = false) ->
  map (fun r => if c r then f r else r) tbl = tbl.
Proof.
  induction tbl as [|r tbl IH]; simpl; intros H; [reflexivity|].
  rewrite (H r) by auto. f_equal. auto.
Qed.

Lemma requests_policy_apply (s : db) (uid : option uuid) (p : Req.patch)
  (now : timestamptz) (r : Req.row) :
  Req.set_assigned_driver_id p = None ->
  requests_update_policy s uid (Req.apply p now r) = requests_update_policy s uid r.
Proof. unfold requests_update_policy. simpl. now intros ->. Qed.

Lemma ambulances_policy_apply (s : db) (uid : option uuid) (p : Amb.patch)
  (now : timestamptz) (a : Amb.row) :
  Amb.set_driver_id p = None ->
  ambulances_update_policy s uid (Amb.apply p now a) = ambulances_update_policy s uid a.
Proof. unfold ambulances_update_policy. simpl. now intros ->. Qed.

(** An UPDATE of [status] and [completed_at] never fails: it writes the
    rows with that id that the policies show, and only those. *)
Lemma update_status_Ok (s : db) (uid : option uuid) (rid : uuid)
  (ns : Req.status_t) (now : timestamptz) :
  update_emergency_requests s uid rid (DriverDashboard.status_patch ns now) now
  = Ok (map (fun r => if N.eqb (Req.id r) rid && requests_update_policy s uid r
                      then Req.apply (DriverDashboard.status_patch ns now) now r
                      else r)
            (emergency_requests s)).
Proof.
  unfold update_emergency_requests. apply rls_update_safe.
  intros r _ H. apply andb_true_iff in H. destruct H as [_ Hv].
  unfold request_violation.
  rewrite requests_policy_apply by reflexivity. now rewrite Hv.
Qed.

(** An UPDATE of [ambulances] that leaves [driver_id] alone never fails. *)
Lemma update_ambulances_Ok (s : db) (uid : option uuid) (aid : uuid)
  (p : Amb.patch) (now : timestamptz) :
  Amb.set_driver_id p = None ->
  update_ambulances s uid aid p now
  = Ok (map (fun a => if N.eqb (Amb.id a) aid && ambulances_update_policy s uid a
                      then Amb.apply p now a else a)
            (ambulances s)).
Proof.
  intros Hp. unfold update_ambulances. apply rls_update_safe.
  intros a _ H. apply andb_true_iff in H. destruct H as [_ Hv].
  unfold ambulance_violation.
  rewrite ambulances_policy_apply by assumption. now rewrite Hv.
Qed.

Lemma updateData_keeps_driver (ns : Req.status_t) (rq : option Req.row) :
  Amb.set_driver_id (DriverDashboard.updateData ns rq) = None.
Proof. destruct ns, rq; reflexivity. Qed.

(** [updateRequestStatus] unfolded: the request statement, then the
    ambulance statement when the dashboard holds an ambulance, and always
    the success toast. *)
Lemma updateRequestStatus_unfold (uid : option uuid)
  (st : DriverDashboard.state) (now : timestamptz) (rid : uuid)
  (ns : Req.status_t) (s : db) :
  DriverDashboard.updateRequestStatus uid st now rid ns s
  = (let s1 :=
       with_emergency_requests
         (map (fun r => if N.eqb (Req.id r) rid && requests_update_policy s uid r
                        then Req.apply (DriverDashboard.status_patch ns now) now r
                        else r)
              (emergency_requests s)) s in
     match DriverDashboard.ambulance st with
     | Some amb =>
       with_ambulances
         (map (fun a => if N.eqb (Amb.id a) (Amb.id amb)
                           && ambulances_update_policy s uid a
                        then Amb.apply
                               (DriverDashboard.updateData ns
                                  (find (fun r => N.eqb (Req.id r) rid)
                                        (DriverDashboard.requests st)))
                               now a
                        else a)
              (ambulances s)) s1
     | None => s1
     end,
     toast_success "Status updated").
Proof.
  unfold DriverDashboard.updateRequestStatus.
  rewrite update_status_Ok. cbv zeta.
  destruct (DriverDashboard.ambulance st) as [amb|]; [|reflexivity].
  rewrite update_ambulances_Ok by apply updateData_keeps_driver.
  reflexivity.
Qed.

(** ** Transitions by another driver *)

(** C7, as the policies have it.  When a user who is neither the assigned
    driver of the request nor an administrator calls the status update, no
    row of the request table changes: the row-level policies hide the row
    from the UPDATE. *)
Theorem other_driver_leaves_requests (s : db) (u : uuid)
  (st : DriverDashboard.state) (now : timestamptz) (rid : uuid)
  (ns : Req.status_t) :
  has_role s (Some u) admin = false ->
  (forall r, In r (emergency_requests s) -> Req.id r = rid ->
             Req.assigned_driver_id r <> Some u) ->
  emergency_requests
    (fst (DriverDashboard.updateRequestStatus (Some u) st now rid ns s))
  = emergency_requests s.
Proof.
  intros Hadmin Hother. rewrite updateRequestStatus_unfold. cbv zeta.
  assert (E : map (fun r => if N.eqb (Req.id r) rid
                               && requests_update_policy s (Some u) r
                            then Req.apply (DriverDashboard.status_patch ns now) now r
                            else r) (emergency_requests s)
              = emergency_requests s).
  { apply map_unless. intros r Hin.
    destruct (N.eqb (Req.id r) rid) eqn:E; [|reflexivity]. simpl.
    apply N.eqb_eq in E. specialize (Hother r Hin E).
    unfold requests_update_policy. rewrite Hadmin, orb_false_r.
    destruct (Req.assigned_driver_id r) as [d|]; [|reflexivity]. simpl.
    apply N.eqb_neq. congruence. }
  simpl. destruct (DriverDashboard.ambulance st); simpl; exact E.
Qed.

Lemma other_driver_leaves_requests_witness :
  emergency_requests
    (fst (DriverDashboard.updateRequestStatus (Some 1%N) scenario_C_dashboard_1
            30 203 Req.en_route scenario_C_db))
  = [req_C].
Proof.
  apply (@other_driver_leaves_requests scenario_C_db 1%N
           scenario_C_dashboard_1 30%Z 203%N Req.en_route).
  - reflexivity.
  - intros r [<-|[]] _. discriminate.
Defined.

(** C7 as stated fails in Scenario C: driver 1, who is not assigned to the
    request, selects [en_route]; the call reports success, not a permission
    error, and the state has changed, for the caller's own ambulance is now
    [en_route]. *)
Lemma other_driver_not_rejected :
  Req.assigned_driver_id req_C <> Some 1%N /\
  has_role scenario_C_db (Some 1%N) admin = false /\
  snd (DriverDashboard.updateRequestStatus (Some 1%N) scenario_C_dashboard_1
         30 203 Req.en_route scenario_C_db)
  = toast_success "Status updated" /\
  fst (DriverDashboard.updateRequestStatus (Some 1%N) scenario_C_dashboard_1
         30 203 Req.en_route scenario_C_db)
  <> scenario_C_db /\
  map Amb.status
    (ambulances
       (fst (DriverDashboard.updateRequestStatus (Some 1%N) scenario_C_dashboard_1
               30 203 Req.en_route scenario_C_db)))
  = [Amb.en_route; Amb.busy].
Proof.
  split; [discriminate|]. split; [reflexivity|]. split; [reflexivity|].
  split; [|reflexivity].
  intros H. apply (f_equal (fun s => map Amb.status (ambulances s))) in H.
  vm_compute in H. discriminate H.
Qed.

(** ** The driver dashboard *)

Lemma In_insert_sorted {A : Type} (before : A -> A -> bool) (x y : A)
  (l : list A) :
  In x (insert_sorted before y l) <-> x = y \/ In x l.
Proof.
  induction l as [|z l IH]; simpl.
  - intuition.
  - destruct (before y z); simpl; [intuition|]. rewrite IH. intuition.
Qed.

Lemma In_order_by {A : Type} (before : A -> A -> bool) (x : A) (l : list A) :
  In x (order_by before l) <-> In x l.
Proof.
  induction l as [|y l IH]; simpl; [reflexivity|].
  unfold order_by in *. simpl. rewrite In_insert_sorted, IH. intuition.
Qed.

Lemma NoDup_map_eq {A B : Type} (f : A -> B) (l : list A) (x y : A) :
  NoDup (map f l) -> In x l -> In y l -> f x = f y -> x = y.
Proof.
  induction l as [|z l IH]; simpl; intros Hnd Hx Hy E; [contradiction|].
  inversion Hnd as [|? ? Hnotin Hnd']; subst.
  destruct Hx as [<-|Hx], Hy as [<-|Hy]; auto.
  - exfalso. apply Hnotin. rewrite E. now apply in_map.
  - exfalso. apply Hnotin. rewrite <- E. now apply in_map.
Qed.

(** [requests.find(r => r.id === requestId)] on a list drawn from a table
    with a primary key. *)
Lemma find_request_by_id (tbl view : list Req.row) (r : Req.row) :
  NoDup (map Req.id tbl) ->
  (forall x, In x view -> In x tbl) ->
  In r tbl -> In r view ->
  find (fun x => N.eqb (Req.id x) (Req.id r)) view = Some r.
Proof.
  intros Hnd Hsub Hr Hv.
  destruct (find (fun x => N.eqb (Req.id x) (Req.id r)) view) as [x|] eqn:E.
  - apply find_some in E. destruct E as [Hx Hid]. apply N.eqb_eq in Hid.
    f_equal. eapply NoDup_map_eq; eauto.
  - eapply find_none in E; [|exact Hv]. rewrite N.eqb_refl in E. discriminate.
Qed.

Lemma single_Some {A : Type} (l : list A) (x : A) :
  single l = Some x -> l = [x].
Proof. destruct l as [|y [|z l]]; simpl; congruence. Qed.

(** What a freshly loaded driver dashboard holds. *)
Lemma fetchData_requests (u : uuid) (s : db) (r : Req.row) :
  In r (DriverDashboard.requests
          (DriverDashboard.fetchData (Some u) DriverDashboard.initial s))
  <-> In r (emergency_requests s)
      /\ Req.assigned_driver_id r = Some u
      /\ DriverDashboard.listed_status (Req.status r) = true.
Proof.
  simpl. rewrite In_order_by, filter_In, andb_true_iff.
  assert (E : sql_eq (Req.assigned_driver_id r) (Some u) = true
              <-> Req.assigned_driver_id r = Some u).
  { destruct (Req.assigned_driver_id r) as [d|]; simpl.
    - rewrite N.eqb_eq. split; congruence.
    - split; discriminate. }
  rewrite E. tauto.
Qed.

Lemma fetchData_ambulance (u : uuid) (s : db) (a : Amb.row) :
  DriverDashboard.ambulance
    (DriverDashboard.fetchData (Some u) DriverDashboard.initial s) = Some a ->
  filter (fun x => sql_eq (Amb.driver_id x) (Some u)) (ambulances s) = [a].
Proof.
  simpl. intros H. apply single_Some.
  destruct (single (filter (fun x => sql_eq (Amb.driver_id x) (Some u))
                           (ambulances s))); simpl in H; congruence.
Qed.

Lemma fetchData_ambulance_In (u : uuid) (s : db) (a : Amb.row) :
  DriverDashboard.ambulance
    (DriverDashboard.fetchData (Some u) DriverDashboard.initial s) = Some a ->
  In a (ambulances s) /\ Amb.driver_id a = Some u.
Proof.
  intros H. apply fetchData_ambulance in H.
  assert (Hin : In a (filter (fun x => sql_eq (Amb.driver_id x) (Some u))
                             (ambulances s))) by (rewrite H; now left).
  apply filter_In in Hin. destruct Hin as [Hin Hd]. split; [assumption|].
  destruct (Amb.driver_id a) as [d|]; simpl in Hd; [|discriminate].
  apply N.eqb_eq in Hd. congruence.
Qed.

(** The two rows a status select writes, when the driver of the request
    uses a freshly loaded dashboard that shows an ambulance. *)
Lemma status_select_effect (s : db) (u : uuid) (now : timestamptz)
  (r : Req.row) (a : Amb.row) (ns : Req.status_t) :
  NoDup (map Req.id (emergency_requests s)) ->
  NoDup (map Amb.id (ambulances s)) ->
  In r (emergency_requests s) ->
  Req.assigned_driver_id r = Some u ->
  DriverDashboard.listed_status (Req.status r) = true ->
  DriverDashboard.ambulance
    (DriverDashboard.fetchData (Some u) DriverDashboard.initial s) = Some a ->
  let s' := fst (DriverDashboard.updateRequestStatus (Some u)
                   (DriverDashboard.fetchData (Some u) DriverDashboard.initial s)
                   now (Req.id r) ns s) in
  let r_new := Req.apply (DriverDashboard.status_patch ns now) now r in
  let a_new := Amb.apply (DriverDashboard.updateData ns (Some r)) now a in
  In r_new (emergency_requests s') /\
  (forall r', In r' (emergency_requests s') -> Req.id r' = Req.id r -> r' = r_new) /\
  In a_new (ambulances s') /\
  (forall a', In a' (ambulances s') -> Amb.id a' = Amb.id a -> a' = a_new).
Proof.
  intros Hndr Hnda Hr Hdrv Hlisted Hamb s' r_new a_new.
  assert (Hview : In r (DriverDashboard.requests
            (DriverDashboard.fetchData (Some u) DriverDashboard.initial s)))
    by (apply fetchData_requests; auto).
  assert (Hfind : find (fun x => N.eqb (Req.id x) (Req.id r))
            (DriverDashboard.requests
               (DriverDashboard.fetchData (Some u) DriverDashboard.initial s))
          = Some r).
  { eapply find_request_by_id; eauto.
    intros x Hx. now apply fetchData_requests in Hx. }
  destruct (fetchData_ambulance_In _ _ Hamb) as [Ha Hadrv].
  assert (Hpol_r : requests_update_policy s (Some u) r = true).
  { unfold requests_update_policy. rewrite Hdrv. simpl. now rewrite N.eqb_refl. }
  assert (Hpol_a : ambulances_update_policy s (Some u) a = true).
  { unfold ambulances_update_policy. rewrite Hadrv. simpl. now rewrite N.eqb_refl. }
  subst s'. rewrite updateRequestStatus_unfold. cbv zeta.
  rewrite Hamb, Hfind. simpl.
  repeat split.
  - apply in_map_iff. exists r. rewrite N.eqb_refl, Hpol_r. auto.
  - intros r' Hin Hid. apply in_map_iff in Hin. destruct Hin as (x & <- & Hx).
    assert (x = r).
    { eapply NoDup_map_eq; eauto.
      destruct (N.eqb (Req.id x) (Req.id r) && _); auto. }
    subst x. now rewrite N.eqb_refl, Hpol_r.
  - apply in_map_iff. exists a. rewrite N.eqb_refl, Hpol_a. auto.
  - intros a' Hin Hid. apply in_map_iff in Hin. destruct Hin as (x & <- & Hx).
    assert (x = a).
    { eapply NoDup_map_eq; eauto.
      destruct (N.eqb (Amb.id x) (Amb.id a) && _); auto. }
    subst x. now rewrite N.eqb_refl, Hpol_a.
Qed.


Lemma scenario_D_keys :
  NoDup (map Req.id (emergency_requests scenario_D_db)) /\
  NoDup (map Amb.id (ambulances scenario_D_db)).
Proof.
  split; simpl; repeat constructor; simpl; intuition discriminate.
Defined.




(** ** What the writers do to the request table *)

Lemma candidate_iff (a : Amb.row) :
  candidate a = true <->
  Amb.status a = Amb.available /\ exists d, Amb.driver_id a = Some d.
Proof.
  unfold candidate. rewrite andb_true_iff.
  destruct (Amb.status a), (Amb.driver_id a) as [d|]; simpl; split;
    try (intros [? ?]; discriminate);
    try (intros [? [? ?]]; discriminate).
  - intros _. split; [reflexivity|]. now exists d.
  - auto.
Qed.

(** The two outcomes of the trigger function. *)
Lemma auto_dispatch_cases (now : timestamptz) (tbl : list Amb.row)
  (NEW : Req.row) :
  auto_dispatch_ambulance now tbl NEW = (tbl, NEW) \/
  exists a,
    In a tbl /\ candidate a = true /\
    Req.status NEW = Req.pending /\
    Req.assigned_ambulance_id NEW = None /\
    auto_dispatch_ambulance now tbl NEW
    = (update_ambulance_by_id (Amb.id a) busy_patch now tbl, assign_NEW a NEW).
Proof.
  unfold auto_dispatch_ambulance.
  destruct (Req.status_eqb (Req.status NEW) Req.pending) eqn:Es; simpl; auto.
  destruct (is_null (Req.assigned_ambulance_id NEW)) eqn:En; auto.
  pose proof (nearest_ambulance_spec tbl (Req.location_lat NEW)
                (Req.location_lng NEW)) as H.
  destruct (nearest_ambulance tbl (Req.location_lat NEW) (Req.location_lng NEW))
    as [a|]; auto.
  right. exists a. destruct H as (Hin & Hc & _).
  apply status_eqb_pending in Es. apply is_null_true in En. auto.
Qed.

(** The request table after any call: untouched, or one row longer, or
    rewritten row by row by a status update or by an assignment. *)
Lemma run_requests_cases (op : operation) (s : db) :
  emergency_requests (run op s) = emergency_requests s \/
  (exists new_id digest now c,
     let res := auto_dispatch_ambulance now (ambulances s)
                  (generate_tracking_code digest (NEW_of new_id now c)) in
     request_key_free (emergency_requests s) (snd res) = true /\
     emergency_requests (run op s) = emergency_requests s ++ [snd res]) \/
  (exists uid rid ns now,
     emergency_requests (run op s)
     = map (fun r => if N.eqb (Req.id r) rid && requests_update_policy s uid r
                     then Req.apply (DriverDashboard.status_patch ns now) now r
                     else r)
           (emergency_requests s)) \/
  (exists uid rid aid d now,
     emergency_requests (run op s)
     = map (fun r => if N.eqb (Req.id r) rid && requests_update_policy s uid r
                     then Req.apply (AdminDashboard.assign_patch aid (Some d)) now r
                     else r)
           (emergency_requests s)).
Proof.
  destruct op as [new_id digest now f|uid st now rid ns|uid st now rid aid
                 |uid now aid did|uid new_id now plate]; simpl.
  - unfold handleSubmit, insert_emergency_request.
    destruct (auto_dispatch_ambulance now (ambulances s)
                (generate_tracking_code digest
                   (NEW_of new_id now (handleSubmit_columns f))))
      as [tbl NEW] eqn:E.
    destruct (request_key_free (emergency_requests s) NEW) eqn:K; auto.
    right; left. exists new_id, digest, now, (handleSubmit_columns f).
    rewrite E. simpl. auto.
  - right; right; left. exists uid, rid, ns, now.
    rewrite updateRequestStatus_unfold. cbv zeta. simpl.
    now destruct (DriverDashboard.ambulance st).
  - unfold AdminDashboard.assignAmbulance.
    destruct (AdminDashboard.optional_chain _ _) as [d|]; auto.
    destruct (update_emergency_requests s uid rid
                (AdminDashboard.assign_patch aid (Some d)) now) as [tbl|e] eqn:E;
      auto.
    right; right; right. exists uid, rid, aid, d, now.
    apply rls_update_Ok in E. rewrite <- E. simpl.
    now destruct (update_ambulances _ _ _ _ _).
  - left. unfold AdminDashboard.assignDriverToAmbulance.
    now destruct (update_ambulances _ _ _ _ _).
  - left. unfold AdminDashboard.createAmbulance.
    destruct (string_forallb _ _); auto.
    destruct (negb (has_role s uid admin)); auto.
    now destruct (negb (AdminDashboard.ambulance_key_free _ _)).
Qed.

(** The trigger function applied to its own result changes nothing. *)
Lemma auto_dispatch_idempotent (now now' : timestamptz) (tbl : list Amb.row)
  (NEW : Req.row) :
  auto_dispatch_ambulance now'
    (fst (auto_dispatch_ambulance now tbl NEW))
    (snd (auto_dispatch_ambulance now tbl NEW))
  = auto_dispatch_ambulance now tbl NEW.
Proof.
  destruct (auto_dispatch_cases now tbl NEW) as [E|(a & _ & _ & _ & _ & E)].
  - rewrite E. simpl. unfold auto_dispatch_ambulance in *.
    destruct (Req.status_eqb (Req.status NEW) Req.pending) eqn:Es;
      [|reflexivity].
    destruct (is_null (Req.assigned_ambulance_id NEW)); [|reflexivity].
    simpl in *.
    destruct (nearest_ambulance tbl (Req.location_lat NEW) (Req.location_lng NEW));
      [|reflexivity].
    injection E as _ E. apply (f_equal Req.status) in E. simpl in E.
    rewrite <- E in Es. discriminate Es.
  - rewrite E. reflexivity.
Qed.

(** ** Ambulance and driver are linked together *)

Lemma both_or_none_dispatched (now : timestamptz) (tbl : list Amb.row)
  (NEW : Req.row) :
  both_or_none NEW = true ->
  both_or_none (snd (auto_dispatch_ambulance now tbl NEW)) = true.
Proof.
  intros H.
  destruct (auto_dispatch_cases now tbl NEW) as [->|(a & _ & Hc & _ & _ & ->)];
    [exact H|].
  apply candidate_iff in Hc. destruct Hc as [_ [d Hd]].
  unfold both_or_none. simpl. now rewrite Hd.
Qed.

Lemma run_both_or_none (op : operation) (s : db) :
  (forall r, In r (emergency_requests s) -> both_or_none r = true) ->
  forall r, In r (emergency_requests (run op s)) -> both_or_none r = true.
Proof.
  intros H r.
  destruct (run_requests_cases op s)
    as [->|[(new_id & digest & now & c & _ & ->)
           |[(uid & rid & ns & now & ->)|(uid & rid & aid & d & now & ->)]]].
  - apply H.
  - intros Hin. apply in_app_iff in Hin. destruct Hin as [Hin|[<-|[]]]; auto.
    now apply both_or_none_dispatched.
  - intros Hin. apply in_map_iff in Hin. destruct Hin as (x & <- & Hx).
    destruct (N.eqb (Req.id x) rid && requests_update_policy s uid x); auto.
    unfold both_or_none. simpl. now apply H.
  - intros Hin. apply in_map_iff in Hin. destruct Hin as (x & <- & Hx).
    destruct (N.eqb (Req.id x) rid && requests_update_policy s uid x); auto.
Qed.

(** C8.  In every state the writers can reach from a database without
    requests, whatever their arguments, each request has its ambulance and
    its driver both null or both set; and every single call keeps it so. *)
Theorem assigned_ids_both_or_none :
  (forall s, reachable s ->
     forall r, In r (emergency_requests s) ->
       (Req.assigned_ambulance_id r = None <-> Req.assigned_driver_id r = None)) /\
  (forall op s,
     (forall r, In r (emergency_requests s) -> both_or_none r = true) ->
     forall r, In r (emergency_requests (run op s)) -> both_or_none r = true).
Proof.
  split; [|exact run_both_or_none].
  assert (Hinv : forall s, reachable s ->
            forall r, In r (emergency_requests s) -> both_or_none r = true).
  { induction 1 as [s [Hnil _]|s op _ IH].
    - rewrite Hnil. intros r [].
    - now apply run_both_or_none. }
  intros s Hs r Hr. specialize (Hinv s Hs r Hr).
  unfold both_or_none in Hinv.
  destruct (Req.assigned_ambulance_id r), (Req.assigned_driver_id r);
    simpl in Hinv; split; congruence.
Qed.

Lemma scenario_A_after_reachable : reachable scenario_A_after.
Proof.
  unfold scenario_A_after. apply reachable_run, reachable_initial.
  split; [reflexivity|].
  simpl. repeat constructor; simpl; intuition discriminate.
Defined.

Lemma assigned_ids_both_or_none_witness :
  reachable scenario_A_after /\
  map Req.assigned_ambulance_id (emergency_requests scenario_A_after)
  = [Some 101%N] /\
  Forall (fun r => Req.assigned_ambulance_id r = None <->
                   Req.assigned_driver_id r = None)
         (emergency_requests scenario_A_after).
Proof.
  split; [exact scenario_A_after_reachable|]. split; [reflexivity|].
  apply Forall_forall.
  exact (proj1 assigned_ids_both_or_none scenario_A_after
           scenario_A_after_reachable).
Defined.

(** ** At most one open request per ambulance *)

Lemma initial_db_invariant (s : db) :
  initial_db s -> ui_invariant s.
Proof.
  intros [Hnil Hnd]. unfold ui_invariant, linked, unassigned_pending,
    one_holder, available_free. rewrite Hnil. simpl.
  repeat split; auto using NoDup_nil; intros; contradiction.
Qed.

Lemma holds_iff (aid : uuid) (r : Req.row) :
  holds aid r = true <->
  Req.active r = true /\ Req.assigned_ambulance_id r = Some aid.
Proof.
  unfold holds. rewrite andb_true_iff.
  destruct (Req.assigned_ambulance_id r) as [x|]; simpl.
  - rewrite N.eqb_eq. split; intros [? ?]; split; congruence.
  - split; intros [? ?]; discriminate.
Qed.

Lemma request_key_free_id (tbl : list Req.row) (r : Req.row) :
  request_key_free tbl r = true -> ~ In (Req.id r) (map Req.id tbl).
Proof.
  unfold request_key_free. rewrite forallb_forall. intros H Hin.
  apply in_map_iff in Hin. destruct Hin as (x & Hid & Hx).
  specialize (H x Hx). apply andb_true_iff in H. destruct H as [H _].
  rewrite Hid, N.eqb_refl in H. discriminate.
Qed.

Lemma NoDup_ids_snoc (tbl : list Req.row) (r : Req.row) :
  NoDup (map Req.id tbl) -> request_key_free tbl r = true ->
  NoDup (map Req.id (tbl ++ [r])).
Proof.
  intros Hnd Hfree. rewrite map_app. simpl.
  apply NoDup_app; auto.
  - repeat constructor. intros [].
  - intros x Hx [<-|[]]. now apply request_key_free_id in Hfree.
Qed.

Lemma update_ambulance_by_id_ids (target : uuid) (p : Amb.patch)
  (now : timestamptz) (tbl : list Amb.row) :
  map Amb.id (update_ambulance_by_id target p now tbl) = map Amb.id tbl.
Proof.
  unfold update_ambulance_by_id. rewrite map_map. apply map_ext.
  intros a. now destruct (N.eqb (Amb.id a) target).
Qed.

(** The three outcomes of the request form. *)
Lemma submit_effect (new_id : uuid) (digest : N) (now : timestamptz)
  (f : form_data) (s : db) :
  let NEW := generate_tracking_code digest
               (NEW_of new_id now (handleSubmit_columns f)) in
  run (Submit new_id digest now f) s = s \/
  (request_key_free (emergency_requests s) NEW = true /\
   (run (Submit new_id digest now f) s
    = mk_db (ambulances s) (emergency_requests s ++ [NEW]) (user_roles s) \/
    exists a,
      In a (ambulances s) /\ candidate a = true /\
      run (Submit new_id digest now f) s
      = mk_db (update_ambulance_by_id (Amb.id a) busy_patch now (ambulances s))
              (emergency_requests s ++ [assign_NEW a NEW])
              (user_roles s))).
Proof.
  intros NEW. simpl. unfold handleSubmit, insert_emergency_request. fold NEW.
  destruct (auto_dispatch_cases now (ambulances s) NEW)
    as [->|(a & Hin & Hc & _ & _ & ->)].
  - destruct (request_key_free (emergency_requests s) NEW) eqn:K; auto.
  - change (request_key_free (emergency_requests s) (assign_NEW a NEW))
      with (request_key_free (emergency_requests s) NEW).
    destruct (request_key_free (emergency_requests s) NEW) eqn:K; auto.
    right. split; [reflexivity|]. right. exists a. auto.
Qed.

Lemma submit_keeps_invariant (new_id : uuid) (digest : N) (now : timestamptz)
  (f : form_data) (s : db) :
  ui_invariant s -> ui_invariant (run (Submit new_id digest now f) s).
Proof.
  intros Inv. pose proof Inv as (Hnda & Hndr & Hlink & Hpend & Hone & Hfree).
  destruct (submit_effect new_id digest now f s)
    as [->|[K [->|(a & Hain & Hc & ->)]]]; [exact Inv| |].
  - (* no ambulance found: a pending, unassigned row is appended *)
    unfold ui_invariant, linked, unassigned_pending, one_holder, available_free.
    simpl. repeat split.
    + assumption.
    + now apply NoDup_ids_snoc.
    + intros r aid Hr Ha. apply in_app_iff in Hr.
      destruct Hr as [Hr|[<-|[]]]; [eauto|discriminate].
    + intros r Hr Ha. apply in_app_iff in Hr.
      destruct Hr as [Hr|[<-|[]]]; [eauto|reflexivity].
    + intros aid r1 r2 H1 H2 Hh1 Hh2. apply in_app_iff in H1, H2.
      destruct H1 as [H1|[<-|[]]]; [|discriminate].
      destruct H2 as [H2|[<-|[]]]; [eauto|discriminate].
    + intros a r Ha Hr Hav. apply in_app_iff in Hr.
      destruct Hr as [Hr|[<-|[]]]; [eauto|reflexivity].
  - (* ambulance [a] found: it turns busy and the new row holds it *)
    apply candidate_iff in Hc. destruct Hc as [Hav [d Hd]].
    assert (Himg : forall x, In x (ambulances s) ->
              exists x', In x' (update_ambulance_by_id (Amb.id a) busy_patch now
                                  (ambulances s))
                         /\ Amb.id x' = Amb.id x
                         /\ Amb.driver_id x' = Amb.driver_id x).
    { intros x Hx. eexists. split; [apply in_map; exact Hx|].
      now destruct (N.eqb (Amb.id x) (Amb.id a)). }
    unfold ui_invariant, linked, unassigned_pending, one_holder, available_free.
    simpl. repeat split.
    + now rewrite update_ambulance_by_id_ids.
    + apply NoDup_ids_snoc; assumption.
    + intros r aid Hr Ha. apply in_app_iff in Hr. destruct Hr as [Hr|[<-|[]]].
      * destruct (Hlink r aid Hr Ha) as (x & Hx & Hid & Hdr & Hnn).
        destruct (Himg x Hx) as (x' & Hx' & Hid' & Hdr').
        exists x'. repeat split; congruence.
      * simpl in Ha. injection Ha as <-.
        destruct (Himg a Hain) as (x' & Hx' & Hid' & Hdr').
        exists x'. simpl. repeat split; congruence.
    + intros r Hr Ha. apply in_app_iff in Hr.
      destruct Hr as [Hr|[<-|[]]]; [eauto|discriminate].
    + intros aid r1 r2 H1 H2 Hh1 Hh2. apply in_app_iff in H1, H2.
      assert (Hold : forall r, In r (emergency_requests s) ->
                holds aid r = true -> aid <> Amb.id a).
      { intros r Hr Hh ->. rewrite (Hfree a r Hain Hr Hav) in Hh. discriminate. }
      assert (Hnew : holds aid (assign_NEW a
                        (generate_tracking_code digest
                           (NEW_of new_id now (handleSubmit_columns f)))) = true ->
                aid = Amb.id a).
      { intros Hh. apply holds_iff in Hh. destruct Hh as [_ Hh].
        simpl in Hh. congruence. }
      destruct H1 as [H1|[<-|[]]], H2 as [H2|[<-|[]]]; eauto.
      * exfalso. eapply Hold; eauto.
      * exfalso. eapply Hold; eauto.
    + intros x' r Hx' Hr Hav'.
      apply in_map_iff in Hx'. destruct Hx' as (x & <- & Hx).
      destruct (N.eqb (Amb.id x) (Amb.id a)) eqn:E; [discriminate Hav'|].
      apply in_app_iff in Hr. destruct Hr as [Hr|[<-|[]]]; [eauto|].
      unfold holds. simpl. rewrite N.eqb_sym, E. reflexivity.
Qed.

Lemma ambStatus_available (ns : Req.status_t) :
  DriverDashboard.ambStatus ns = Amb.available -> ns = Req.completed.
Proof. destruct ns; simpl; congruence. Qed.

Lemma updateData_status (ns : Req.status_t) (rq : option Req.row) :
  Amb.set_status (DriverDashboard.updateData ns rq)
  = Some (DriverDashboard.ambStatus ns).
Proof. destruct ns, rq; reflexivity. Qed.

Lemma listed_not_pending (st : Req.status_t) :
  DriverDashboard.listed_status st = true ->
  st <> Req.pending /\ Req.terminal st = false.
Proof. destruct st; simpl; split; congruence. Qed.

(** The effect of a status select offered by a fresh driver dashboard. *)
Lemma status_select_offered (user : uuid) (now : timestamptz) (rid : uuid)
  (ns : Req.status_t) (s : db) :
  ui_offered (UiStatusSelect user now rid ns) s = true ->
  exists r0,
    In r0 (emergency_requests s) /\ Req.id r0 = rid /\
    Req.assigned_driver_id r0 = Some user /\
    DriverDashboard.listed_status (Req.status r0) = true /\
    select_item ns = true /\
    emergency_requests (ui_run (UiStatusSelect user now rid ns) s)
    = map (fun r => if N.eqb (Req.id r) rid
                       && requests_update_policy s (Some user) r
                    then Req.apply (DriverDashboard.status_patch ns now) now r
                    else r)
          (emergency_requests s) /\
    user_roles (ui_run (UiStatusSelect user now rid ns) s) = user_roles s /\
    (ambulances (ui_run (UiStatusSelect user now rid ns) s) = ambulances s \/
     exists a p,
       filter (fun x => sql_eq (Amb.driver_id x) (Some user)) (ambulances s) = [a] /\
       Amb.set_driver_id p = None /\
       Amb.set_status p = Some (DriverDashboard.ambStatus ns) /\
       ambulances (ui_run (UiStatusSelect user now rid ns) s)
       = map (fun x => if N.eqb (Amb.id x) (Amb.id a)
                          && ambulances_update_policy s (Some user) x
                       then Amb.apply p now x else x)
             (ambulances s)).
Proof.
  intros Hoff. unfold ui_offered in Hoff.
  apply andb_true_iff in Hoff. destruct Hoff as [Hex Hsel].
  apply existsb_exists in Hex. destruct Hex as (r0 & Hr0 & Hid).
  apply N.eqb_eq in Hid. apply fetchData_requests in Hr0.
  destruct Hr0 as (Hin & Hdrv & Hlisted).
  exists r0. repeat (split; [assumption|]).
  unfold ui_run, ui_call, run. rewrite updateRequestStatus_unfold. cbv zeta.
  destruct (DriverDashboard.ambulance
              (DriverDashboard.fetchData (Some user) DriverDashboard.initial s))
    as [a|] eqn:Ea; simpl.
  - split; [reflexivity|]. split; [reflexivity|]. right.
    apply fetchData_ambulance in Ea.
    eexists a, _. split; [exact Ea|].
    split; [apply updateData_keeps_driver|].
    split; [apply updateData_status|]. reflexivity.
  - auto.
Qed.

Lemma status_select_keeps_invariant (user : uuid) (now : timestamptz)
  (rid : uuid) (ns : Req.status_t) (s : db) :
  ui_invariant s ->
  ui_offered (UiStatusSelect user now rid ns) s = true ->
  ui_invariant (ui_run (UiStatusSelect user now rid ns) s).
Proof.
  intros (Hnda & Hndr & Hlink & Hpend & Hone & Hfree) Hoff.
  destruct (@status_select_offered user now rid ns s Hoff)
    as (r0 & Hr0 & Hid0 & Hdrv0 & Hlisted0 & Hsel & Ereq & _ & Eamb).
  destruct (listed_not_pending _ Hlisted0) as [Hnp0 Hact0].
  set (s' := ui_run (UiStatusSelect user now rid ns) s) in *.
  set (h := fun r => if N.eqb (Req.id r) rid
                        && requests_update_policy s (Some user) r
                     then Req.apply (DriverDashboard.status_patch ns now) now r
                     else r) in *.
  (* the request rows: only [r0] can change, and only its status,
     [completed_at] and [updated_at] *)
  assert (Hh_id : forall r, Req.id (h r) = Req.id r).
  { intros r. unfold h. now destruct (_ && _). }
  assert (Hh_amb : forall r, Req.assigned_ambulance_id (h r)
                             = Req.assigned_ambulance_id r).
  { intros r. unfold h. now destruct (_ && _). }
  assert (Hh_drv : forall r, Req.assigned_driver_id (h r)
                             = Req.assigned_driver_id r).
  { intros r. unfold h. now destruct (_ && _). }
  assert (Hh_other : forall r, In r (emergency_requests s) ->
                       Req.id r <> rid -> h r = r).
  { intros r _ Hne. unfold h. apply N.eqb_neq in Hne. now rewrite Hne. }
  assert (Hh_r0 : forall r, In r (emergency_requests s) ->
                    Req.id r = rid -> r = r0).
  { intros r Hr Hid. eapply NoDup_map_eq; eauto. congruence. }
  assert (Hh_holds : forall aid r, In r (emergency_requests s) ->
                       holds aid (h r) = true -> holds aid r = true).
  { intros aid r Hr Hh. destruct (N.eq_dec (Req.id r) rid) as [Hid|Hne].
    - apply holds_iff in Hh. apply holds_iff. rewrite Hh_amb in Hh.
      destruct Hh as [_ Hh]. split; [|exact Hh].
      rewrite (Hh_r0 r Hr Hid). unfold Req.active. now rewrite Hact0.
    - now rewrite Hh_other in Hh. }
  (* the ambulance rows keep their id and driver *)
  assert (Hg : exists g,
             ambulances s' = map g (ambulances s) /\
             (forall x, Amb.id (g x) = Amb.id x) /\
             (forall x, Amb.driver_id (g x) = Amb.driver_id x) /\
             (forall x, In x (ambulances s) ->
                g x = x \/
                (Amb.status (g x) = DriverDashboard.ambStatus ns /\
                 exists a, filter (fun x => sql_eq (Amb.driver_id x) (Some user))
                                  (ambulances s) = [a]
                           /\ Amb.id x = Amb.id a))).
  { destruct Eamb as [E|(a & p & Hf & Hpd & Hps & E)].
    - exists (fun x => x). rewrite map_id. auto.
    - eexists. split; [exact E|]. repeat split.
      + intros x. now destruct (_ && _).
      + intros x. destruct (_ && _); [|reflexivity]. simpl. now rewrite Hpd.
      + intros x _. destruct (N.eqb (Amb.id x) (Amb.id a)) eqn:Ex; [|now left].
        destruct (ambulances_update_policy s (Some user) x); [|now left].
        right. simpl. rewrite Hps. simpl. split; [reflexivity|].
        exists a. apply N.eqb_eq in Ex. auto. }
  destruct Hg as (g & Eg & Hg_id & Hg_drv & Hg_cases).
  unfold ui_invariant, linked, unassigned_pending, one_holder, available_free.
  rewrite Ereq, Eg. repeat split.
  - rewrite map_map. erewrite map_ext; [exact Hnda|]. auto.
  - rewrite map_map. erewrite map_ext; [exact Hndr|]. auto.
  - intros r' aid Hr' Ha. apply in_map_iff in Hr'. destruct Hr' as (r & <- & Hr).
    rewrite Hh_amb in Ha. rewrite Hh_drv.
    destruct (Hlink r aid Hr Ha) as (x & Hx & Hxid & Hxd & Hnn).
    exists (g x). split; [now apply in_map|]. rewrite Hg_id, Hg_drv. auto.
  - intros r' Hr' Ha. apply in_map_iff in Hr'. destruct Hr' as (r & <- & Hr).
    rewrite Hh_amb in Ha. pose proof (Hpend r Hr Ha) as Hp.
    rewrite Hh_other; auto.
    intros Hid. rewrite (Hh_r0 r Hr Hid) in Hp. contradiction.
  - intros aid r1' r2' H1 H2 Hh1 Hh2.
    apply in_map_iff in H1, H2.
    destruct H1 as (r1 & <- & H1), H2 as (r2 & <- & H2).
    f_equal. eapply Hone; eauto.
  - intros x' r' Hx' Hr' Hav.
    apply in_map_iff in Hx', Hr'.
    destruct Hx' as (x & <- & Hx), Hr' as (r & <- & Hr).
    destruct (holds (Amb.id (g x)) (h r)) eqn:Hh; [exfalso|reflexivity].
    rewrite Hg_id in Hh. pose proof (Hh_holds _ _ Hr Hh) as Hold.
    destruct (Hg_cases x Hx) as [Ex|(Est & a & Hf & Hxa)].
    + rewrite Ex in Hav. rewrite (Hfree x r Hx Hr Hav) in Hold. discriminate.
    + rewrite Est in Hav. apply ambStatus_available in Hav. subst ns.
      (* [r0] holds the driver's ambulance, so [r] is [r0], now completed *)
      assert (Hr0holds : holds (Amb.id x) r0 = true).
      { apply holds_iff. split; [unfold Req.active; now rewrite Hact0|].
        destruct (Req.assigned_ambulance_id r0) as [y|] eqn:Ey;
          [|now apply Hpend in Ey].
        destruct (Hlink r0 y Hr0 Ey) as (a2 & Ha2 & Hid2 & Hd2 & _).
        assert (Hin2 : In a2 (filter (fun x => sql_eq (Amb.driver_id x) (Some user))
                                     (ambulances s))).
        { apply filter_In. split; [assumption|].
          rewrite Hd2, Hdrv0. simpl. apply N.eqb_refl. }
        rewrite Hf in Hin2. destruct Hin2 as [<-|[]]. congruence. }
      assert (r = r0) by (eapply Hone; eauto). subst r.
      apply holds_iff in Hh. destruct Hh as [Hact _].
      unfold h in Hact. rewrite Hid0, N.eqb_refl in Hact.
      unfold requests_update_policy in Hact. rewrite Hdrv0 in Hact.
      simpl in Hact. rewrite N.eqb_refl in Hact. simpl in Hact.
      discriminate.
Qed.

Lemma In_firstn {A : Type} (n : nat) (l : list A) (x : A) :
  In x (firstn n l) -> In x l.
Proof.
  intros H. rewrite <- (firstn_skipn n l). apply in_or_app. now left.
Qed.

Lemma find_ambulance_by_id (tbl view : list Amb.row) (a : Amb.row) :
  NoDup (map Amb.id tbl) ->
  (forall x, In x view -> In x tbl) ->
  In a tbl -> In a view ->
  find (fun x => N.eqb (Amb.id x) (Amb.id a)) view = Some a.
Proof.
  intros Hnd Hsub Ha Hv.
  destruct (find (fun x => N.eqb (Amb.id x) (Amb.id a)) view) as [x|] eqn:E.
  - apply find_some in E. destruct E as [Hx Hid]. apply N.eqb_eq in Hid.
    f_equal. eapply NoDup_map_eq; eauto.
  - eapply find_none in E; [|exact Hv]. rewrite N.eqb_refl in E. discriminate.
Qed.

(** The effect of an "Assign ambulance" select offered by a fresh admin
    dashboard: nothing, or the pending request gets the available ambulance
    and its driver while the ambulance turns busy. *)
Lemma assign_select_offered (user : uuid) (now : timestamptz)
  (rid aid : uuid) (s : db) :
  NoDup (map Amb.id (ambulances s)) ->
  ui_offered (UiAssignSelect user now rid aid) s = true ->
  ui_run (UiAssignSelect user now rid aid) s = s \/
  exists a0 d r0,
    In a0 (ambulances s) /\ Amb.id a0 = aid /\
    Amb.status a0 = Amb.available /\ Amb.driver_id a0 = Some d /\
    In r0 (emergency_requests s) /\ Req.id r0 = rid /\
    Req.status r0 = Req.pending /\
    ui_run (UiAssignSelect user now rid aid) s
    = mk_db
        (map (fun x => if N.eqb (Amb.id x) aid
                       then Amb.apply busy_patch now x else x)
             (ambulances s))
        (map (fun r => if N.eqb (Req.id r) rid
                       then Req.apply (AdminDashboard.assign_patch aid (Some d)) now r
                       else r)
             (emergency_requests s))
        (user_roles s).
Proof.
  intros Hnd Hoff. unfold ui_offered in Hoff.
  apply andb_true_iff in Hoff. destruct Hoff as [Hoff Hexa].
  apply andb_true_iff in Hoff. destruct Hoff as [Hadmin Hexr].
  apply existsb_exists in Hexr. destruct Hexr as (r0 & Hr0 & Hr0').
  apply andb_true_iff in Hr0'. destruct Hr0' as [Hrid Hpend].
  apply N.eqb_eq in Hrid. apply status_eqb_pending in Hpend.
  apply In_firstn, In_order_by in Hr0.
  apply existsb_exists in Hexa. destruct Hexa as (a0 & Ha0 & Haid).
  apply N.eqb_eq in Haid.
  unfold AdminDashboard.availableAmbulances in Ha0.
  apply filter_In in Ha0. destruct Ha0 as [Hview Hav].
  assert (Ha0 : In a0 (ambulances s)) by now apply In_order_by in Hview.
  assert (Hav' : Amb.status a0 = Amb.available)
    by (destruct (Amb.status a0); simpl in Hav; congruence).
  subst aid.
  unfold ui_run, ui_call, run, AdminDashboard.assignAmbulance.
  rewrite (@find_ambulance_by_id (ambulances s)); auto;
    [|intros x Hx; now apply In_order_by in Hx].
  simpl. destruct (Amb.driver_id a0) as [d|] eqn:Hd; [|now left].
  destruct (update_emergency_requests s (Some user) rid
              (AdminDashboard.assign_patch (Amb.id a0) (Some d)) now)
    as [tbl|e] eqn:E; [|now left].
  right. exists a0, d, r0. repeat (split; [assumption || reflexivity|]).
  apply rls_update_Ok in E.
  rewrite update_ambulances_Ok by reflexivity. simpl.
  unfold with_ambulances, with_emergency_requests. simpl.
  f_equal.
  - apply map_ext. intros x. unfold ambulances_update_policy.
    change (has_role (mk_db (ambulances s) tbl (user_roles s)) (Some user) admin)
      with (has_role s (Some user) admin).
    rewrite Hadmin, orb_true_r, andb_true_r. reflexivity.
  - rewrite E. apply map_ext. intros r. unfold requests_update_policy.
    rewrite Hadmin, orb_true_r, andb_true_r. reflexivity.
Qed.

Lemma assign_select_keeps_invariant (user : uuid) (now : timestamptz)
  (rid aid : uuid) (s : db) :
  ui_invariant s ->
  ui_offered (UiAssignSelect user now rid aid) s = true ->
  ui_invariant (ui_run (UiAssignSelect user now rid aid) s).
Proof.
  intros Inv Hoff.
  pose proof Inv as (Hnda & Hndr & Hlink & Hpend & Hone & Hfree).
  destruct (@assign_select_offered user now rid aid s Hnda Hoff)
    as [->|(a0 & d & r0 & Ha0 & Haid & Hav & Hd & Hr0 & Hrid & Hp0 & ->)];
    [exact Inv|].
  set (g := fun x => if N.eqb (Amb.id x) aid
                     then Amb.apply busy_patch now x else x).
  set (h := fun r => if N.eqb (Req.id r) rid
                     then Req.apply (AdminDashboard.assign_patch aid (Some d)) now r
                     else r).
  assert (Hg_id : forall x, Amb.id (g x) = Amb.id x).
  { intros x. unfold g. now destruct (N.eqb _ _). }
  assert (Hg_drv : forall x, Amb.driver_id (g x) = Amb.driver_id x).
  { intros x. unfold g. now destruct (N.eqb _ _). }
  assert (Hh_id : forall r, Req.id (h r) = Req.id r).
  { intros r. unfold h. now destruct (N.eqb _ _). }
  (* an open row of the new table holds either the chosen ambulance, being
     the assigned row, or what it held before *)
  assert (Hh_holds : forall x r, In r (emergency_requests s) ->
            holds x (h r) = true ->
            (Req.id r = rid /\ x = aid) \/ (h r = r /\ holds x r = true)).
  { intros x r Hr Hh. unfold h in *.
    destruct (N.eqb (Req.id r) rid) eqn:E.
    - left. apply N.eqb_eq in E. split; [assumption|].
      apply holds_iff in Hh. destruct Hh as [_ Hh]. simpl in Hh. congruence.
    - right. auto. }
  assert (Hfree0 : forall r, In r (emergency_requests s) -> holds aid r = false).
  { intros r Hr. rewrite <- Haid. now apply Hfree. }
  unfold ui_invariant, linked, unassigned_pending, one_holder, available_free.
  simpl. fold g h. repeat split.
  - rewrite map_map. erewrite map_ext; [exact Hnda|]. auto.
  - rewrite map_map. erewrite map_ext; [exact Hndr|]. auto.
  - intros r' y Hr' Hy. apply in_map_iff in Hr'. destruct Hr' as (r & <- & Hr).
    unfold h in *. destruct (N.eqb (Req.id r) rid) eqn:E.
    + simpl in Hy. injection Hy as <-. exists (g a0).
      split; [now apply in_map|]. rewrite Hg_id, Hg_drv. simpl.
      repeat split; congruence.
    + destruct (Hlink r y Hr Hy) as (x & Hx & Hxid & Hxd & Hnn).
      exists (g x). split; [now apply in_map|]. rewrite Hg_id, Hg_drv. auto.
  - intros r' Hr' Hnone. apply in_map_iff in Hr'. destruct Hr' as (r & <- & Hr).
    unfold h in *. destruct (N.eqb (Req.id r) rid); [discriminate Hnone|auto].
  - intros x r1' r2' H1 H2 Hh1 Hh2.
    apply in_map_iff in H1, H2.
    destruct H1 as (r1 & <- & H1), H2 as (r2 & <- & H2).
    destruct (Hh_holds x r1 H1 Hh1) as [[Hid1 Hx1]|[E1 Hold1]],
             (Hh_holds x r2 H2 Hh2) as [[Hid2 Hx2]|[E2 Hold2]].
    + f_equal. eapply NoDup_map_eq; eauto. congruence.
    + subst x. rewrite Hfree0 in Hold2 by assumption. discriminate.
    + subst x. rewrite Hfree0 in Hold1 by assumption. discriminate.
    + rewrite E1, E2. eapply Hone; eauto.
  - intros x' r' Hx' Hr' Hav'.
    apply in_map_iff in Hx', Hr'.
    destruct Hx' as (x & <- & Hx), Hr' as (r & <- & Hr).
    destruct (holds (Amb.id (g x)) (h r)) eqn:Hh; [exfalso|reflexivity].
    rewrite Hg_id in Hh. unfold g in Hav'.
    destruct (N.eqb (Amb.id x) aid) eqn:E; [discriminate Hav'|].
    apply N.eqb_neq in E.
    destruct (Hh_holds _ r Hr Hh) as [[_ Hx1]|[_ Hold]]; [contradiction|].
    rewrite (Hfree x r Hx Hr Hav') in Hold. discriminate.
Qed.

Lemma ui_run_keeps_invariant (op : ui_operation) (s : db) :
  ui_invariant s -> ui_offered op s = true -> ui_invariant (ui_run op s).
Proof.
  destruct op as [new_id digest now f|user now rid ns|user now rid aid].
  - intros Inv _. now apply submit_keeps_invariant.
  - apply status_select_keeps_invariant.
  - apply assign_select_keeps_invariant.
Qed.

Lemma ui_reachable_invariant (s : db) : ui_reachable s -> ui_invariant s.
Proof.
  induction 1 as [s Hinit|s op _ IH Hoff].
  - now apply initial_db_invariant.
  - now apply ui_run_keeps_invariant.
Qed.

(** In a state the pages can reach, the ambulance a driver's dashboard
    shows is the ambulance of each open request assigned to that driver. *)
Lemma dashboard_ambulance_is_assigned (s : db) (u : uuid) (r : Req.row)
  (a : Amb.row) :
  ui_reachable s ->
  In r (emergency_requests s) ->
  Req.assigned_driver_id r = Some u ->
  DriverDashboard.listed_status (Req.status r) = true ->
  DriverDashboard.ambulance
    (DriverDashboard.fetchData (Some u) DriverDashboard.initial s) = Some a ->
  Req.assigned_ambulance_id r = Some (Amb.id a).
Proof.
  intros Hs Hr Hdrv Hlisted Hamb. apply ui_reachable_invariant in Hs.
  destruct Hs as (_ & _ & Hlink & Hpend & _ & _).
  destruct (listed_not_pending _ Hlisted) as [Hnp _].
  apply fetchData_ambulance in Hamb.
  destruct (Req.assigned_ambulance_id r) as [y|] eqn:Ey;
    [|now apply Hpend in Ey].
  destruct (Hlink r y Hr Ey) as (a2 & Ha2 & Hid2 & Hd2 & _).
  assert (Hin2 : In a2 (filter (fun x => sql_eq (Amb.driver_id x) (Some u))
                               (ambulances s))).
  { apply filter_In. split; [assumption|].
    rewrite Hd2, Hdrv. simpl. apply N.eqb_refl. }
  rewrite Hamb in Hin2. destruct Hin2 as [<-|[]]. congruence.
Qed.

Lemma filter_at_most_one {A : Type} (p : A -> bool) (l : list A) :
  NoDup l ->
  (forall x y, In x l -> In y l -> p x = true -> p y = true -> x = y) ->
  (List.length (filter p l) <= 1)%nat.
Proof.
  induction l as [|x l IH]; simpl; intros Hnd Huniq; [lia|].
  inversion Hnd as [|? ? Hnotin Hnd']; subst.
  destruct (p x) eqn:Px.
  - assert (E : filter p l = []).
    { destruct (filter p l) as [|y t] eqn:F; [reflexivity|exfalso].
      assert (Hy : In y (filter p l)) by (rewrite F; now left).
      apply filter_In in Hy. destruct Hy as [Hy Py].
      apply Hnotin. rewrite (Huniq x y); auto. }
    rewrite E. simpl. lia.
  - apply IH; auto.
Qed.

(** C2, as the pages have it.  In every state reached from a database
    without requests by gestures the pages offer on freshly fetched
    dashboards (the request form, the status select of a driver's open
    request, the assignment of an available ambulance to a pending request
    by an administrator), at most one request that is neither completed nor
    cancelled is assigned to any given ambulance. *)
Theorem one_open_request_per_ambulance (s : db) :
  ui_reachable s -> forall aid, (active_assignments aid s <= 1)%nat.
Proof.
  intros Hs aid. apply ui_reachable_invariant in Hs.
  destruct Hs as (_ & Hndr & _ & _ & Hone & _).
  unfold active_assignments. apply filter_at_most_one.
  - eapply NoDup_map_inv; eauto.
  - intros x y Hx Hy Px Py. eapply Hone; eauto.
Qed.

Lemma scenario_A_db_initial : initial_db scenario_A_db.
Proof.
  split; [reflexivity|]. simpl. repeat constructor; simpl; intuition discriminate.
Defined.

Lemma one_open_request_per_ambulance_witness :
  ui_reachable (ui_run (UiSubmit 201 (N.shiftl 1 96) 20 form_A) scenario_A_db) /\
  (active_assignments 101
     (ui_run (UiSubmit 201 (N.shiftl 1 96) 20 form_A) scenario_A_db) <= 1)%nat.
Proof.
  assert (H : ui_reachable
                (ui_run (UiSubmit 201 (N.shiftl 1 96) 20 form_A) scenario_A_db)).
  { apply ui_reachable_run; [|reflexivity].
    apply ui_reachable_initial, scenario_A_db_initial. }
  split; [exact H|].
  exact (@one_open_request_per_ambulance _ H 101%N).
Defined.

(** C2 as stated fails on the writers themselves.  [assignAmbulance] reads
    the fleet from the dashboard state and checks neither the ambulance's
    status nor the request's; run on a dashboard fetched one request
    earlier, it gives ambulance 101 to request 302 while request 303 holds
    it. *)
Lemma stale_assignment_two_holders :
  reachable race_db5 /\
  ui_offered (UiAssignSelect 9 14 302 101) race_db3 = true /\
  active_assignments 101 race_db4 = 1%nat /\
  active_assignments 101 race_db5 = 2%nat.
Proof.
  split; [|split; [|split]]; [|vm_compute; reflexivity..].
  unfold race_db5, race_db4, race_db3, race_db2, race_db1.
  repeat apply reachable_run. apply reachable_initial.
  split; [reflexivity|]. simpl. repeat constructor. intros [].
Qed.

(** ** Terminal requests *)

Lemma terminal_not_listed (st : Req.status_t) :
  Req.terminal st = true ->
  DriverDashboard.listed_status st = false /\ st <> Req.pending.
Proof. destruct st; simpl; split; congruence. Qed.

(** A gesture offered by a page never targets a completed or cancelled
    request: such a row stays in the table as it is. *)
Lemma ui_run_keeps_terminal (op : ui_operation) (s : db) (r : Req.row) :
  ui_invariant s -> ui_offered op s = true ->
  In r (emergency_requests s) -> Req.terminal (Req.status r) = true ->
  In r (emergency_requests (ui_run op s)).
Proof.
  intros (Hnda & Hndr & _) Hoff Hr Hterm.
  destruct (terminal_not_listed _ Hterm) as [Hnl Hnp].
  destruct op as [new_id digest now f|user now rid ns|user now rid aid].
  - unfold ui_run, ui_call.
    destruct (submit_effect new_id digest now f s)
      as [->|[_ [->|(a & _ & _ & ->)]]]; simpl; auto using in_or_app.
  - destruct (@status_select_offered user now rid ns s Hoff)
      as (r0 & Hr0 & Hid0 & _ & Hlisted0 & _ & -> & _).
    apply in_map_iff. exists r. split; [|assumption].
    destruct (N.eqb (Req.id r) rid) eqn:E; [|reflexivity].
    apply N.eqb_eq in E.
    assert (r = r0) by (eapply NoDup_map_eq; eauto; congruence).
    subst r0. congruence.
  - destruct (@assign_select_offered user now rid aid s Hnda Hoff)
      as [->|(a0 & d & r0 & _ & _ & _ & _ & Hr0 & Hid0 & Hp0 & ->)];
      [assumption|].
    simpl. apply in_map_iff. exists r. split; [|assumption].
    destruct (N.eqb (Req.id r) rid) eqn:E; [|reflexivity].
    apply N.eqb_eq in E.
    assert (r = r0) by (eapply NoDup_map_eq; eauto; congruence).
    subst r0. contradiction.
Qed.

(** C4, as the pages have it.  From a state the pages can reach, no
    sequence of gestures offered on freshly fetched dashboards changes a
    request that is completed or cancelled: the row stays as it is, status
    included. *)
Theorem terminal_request_stays (s s' : db) (r : Req.row) :
  ui_reachable s -> ui_steps s s' ->
  In r (emergency_requests s) -> Req.terminal (Req.status r) = true ->
  In r (emergency_requests s').
Proof.
  intros Hs Hsteps. induction Hsteps as [s|s op s' Hoff _ IH]; intros Hr Hterm.
  - assumption.
  - apply IH.
    + now apply ui_reachable_run.
    + apply ui_run_keeps_terminal; auto. now apply ui_reachable_invariant.
    + assumption.
Qed.

Lemma race_db3_ui_reachable : ui_reachable race_db3.
Proof.
  change race_db3 with
    (ui_run (UiStatusSelect 1 12 301 Req.completed)
       (ui_run (UiSubmit 302 (N.shiftl 2 96) 11 form_A)
          (ui_run (UiSubmit 301 (N.shiftl 1 96) 10 form_A) race_db0))).
  repeat (apply ui_reachable_run; [|vm_compute; reflexivity]).
  apply ui_reachable_initial.
  split; [reflexivity|]. simpl. repeat constructor. intros [].
Defined.

Lemma terminal_request_stays_witness :
  exists r,
    In r (emergency_requests race_db3) /\
    Req.id r = 301%N /\ Req.status r = Req.completed /\
    In r (emergency_requests
            (ui_run (UiSubmit 303 (N.shiftl 3 96) 14 form_A)
               (ui_run (UiAssignSelect 9 13 302 101) race_db3))).
Proof.
  eexists. split; [left; reflexivity|].
  split; [reflexivity|]. split; [reflexivity|].
  apply (@terminal_request_stays race_db3); [exact race_db3_ui_reachable| |
    left; reflexivity|reflexivity].
  apply ui_steps_run with (op := UiAssignSelect 9 13 302 101);
    [vm_compute; reflexivity|].
  apply ui_steps_run with (op := UiSubmit 303 (N.shiftl 3 96) 14 form_A);
    [reflexivity|].
  apply ui_steps_refl.
Defined.

(** C4 as stated fails on the writers themselves.  [updateRequestStatus]
    and the policy behind it look at the assigned driver, not at the
    current status: the driver of request 201, on a dashboard that still
    lists the request, moves it from [completed] back to [en_route], and
    its [completed_at] back to null. *)
Lemma completed_request_reopened :
  reachable reopen_db2 /\
  map Req.status (emergency_requests reopen_db1) = [Req.completed] /\
  map Req.status (emergency_requests reopen_db2) = [Req.en_route] /\
  map Req.completed_at (emergency_requests reopen_db1) = [Some 30%Z] /\
  map Req.completed_at (emergency_requests reopen_db2) = [None].
Proof.
  split; [|repeat split; vm_compute; reflexivity].
  unfold reopen_db2, reopen_db1, scenario_A_after.
  repeat apply reachable_run. apply reachable_initial.
  apply scenario_A_db_initial.
Qed.

(** ** Tracking codes in the table *)

Lemma request_key_free_iff (tbl : list Req.row) (r : Req.row) :
  request_key_free tbl r = true <->
  forall r0, In r0 tbl ->
    Req.id r0 <> Req.id r /\ Req.tracking_code r0 <> Req.tracking_code r.
Proof.
  unfold request_key_free. rewrite forallb_forall.
  split; intros H r0 Hr0; specialize (H r0 Hr0).
  - apply andb_true_iff in H. destruct H as [H1 H2].
    apply negb_true_iff in H1, H2.
    apply N.eqb_neq in H1. apply String.eqb_neq in H2. auto.
  - destruct H as [H1 H2]. apply andb_true_iff.
    split; apply negb_true_iff; [now apply N.eqb_neq|now apply String.eqb_neq].
Qed.

(** A successful INSERT appends one row, with the given key and the
    generated code, whatever code the statement supplied. *)
Lemma insert_appends (new_id : uuid) (digest : N) (now : timestamptz)
  (c : insert_columns) (s s' : db) :
  insert_emergency_request new_id digest now c s = Ok s' ->
  exists r,
    emergency_requests s' = emergency_requests s ++ [r] /\
    Req.id r = new_id /\
    Req.tracking_code r = tracking_code_of digest /\
    request_key_free (emergency_requests s) r = true.
Proof.
  unfold insert_emergency_request.
  destruct (auto_dispatch_cases now (ambulances s)
              (generate_tracking_code digest (NEW_of new_id now c)))
    as [->|(a & _ & _ & _ & _ & ->)];
    destruct (request_key_free _ _) eqn:K; intros H; try discriminate;
    injection H as <-; eexists; simpl; eauto.
Qed.

Lemma insert_succeeds (new_id : uuid) (digest : N) (now : timestamptz)
  (c : insert_columns) (s : db) :
  (forall r0, In r0 (emergency_requests s) ->
     Req.id r0 <> new_id /\ Req.tracking_code r0 <> tracking_code_of digest) ->
  exists s', insert_emergency_request new_id digest now c s = Ok s'.
Proof.
  intros Hfree. unfold insert_emergency_request.
  destruct (auto_dispatch_cases now (ambulances s)
              (generate_tracking_code digest (NEW_of new_id now c)))
    as [->|(a & _ & _ & _ & _ & ->)].
  - assert (K : request_key_free (emergency_requests s)
                  (generate_tracking_code digest (NEW_of new_id now c)) = true)
      by (apply request_key_free_iff; exact Hfree).
    rewrite K. eauto.
  - assert (K : request_key_free (emergency_requests s)
                  (assign_NEW a
                     (generate_tracking_code digest (NEW_of new_id now c))) = true)
      by (apply request_key_free_iff; exact Hfree).
    rewrite K. eauto.
Qed.

(** Every call keeps the id and the tracking code of every stored request:
    the table of identities only grows at its end, by a row whose code was
    generated and is not yet in the table. *)
Lemma run_identities (op : operation) (s : db) :
  map identity (emergency_requests (run op s))
  = map identity (emergency_requests s) \/
  exists r digest,
    map identity (emergency_requests (run op s))
    = map identity (emergency_requests s) ++ [identity r] /\
    Req.tracking_code r = tracking_code_of digest /\
    request_key_free (emergency_requests s) r = true.
Proof.
  destruct (run_requests_cases op s)
    as [->|[(new_id & digest & now & c & K & ->)
           |[(uid & rid & ns & now & ->)|(uid & rid & aid & d & now & ->)]]].
  - now left.
  - right. eexists _, digest. rewrite map_app. simpl.
    split; [reflexivity|]. split; [|exact K].
    destruct (auto_dispatch_cases now (ambulances s)
                (generate_tracking_code digest (NEW_of new_id now c)))
      as [->|(a & _ & _ & _ & _ & ->)]; reflexivity.
  - left. rewrite map_map. apply map_ext. intros r. now destruct (_ && _).
  - left. rewrite map_map. apply map_ext. intros r. now destruct (_ && _).
Qed.

Lemma reachable_codes (s : db) :
  reachable s ->
  NoDup (map Req.tracking_code (emergency_requests s)) /\
  Forall (fun c => tracking_code_format c = true)
         (map Req.tracking_code (emergency_requests s)).
Proof.
  induction 1 as [s [Hnil _]|s op _ [IHnd IHfmt]].
  - rewrite Hnil. simpl. split; constructor.
  - assert (Hcodes : forall l : list Req.row,
              map Req.tracking_code l = map snd (map identity l)).
    { intros l. rewrite map_map. reflexivity. }
    rewrite !Hcodes in *.
    destruct (run_identities op s) as [->|(r & digest & -> & Hcode & K)];
      [auto|].
    rewrite map_app. simpl. split.
    + apply NoDup_app; auto.
      * repeat constructor. intros [].
      * intros x Hx [<-|[]]. rewrite <- Hcodes in Hx.
        apply in_map_iff in Hx. destruct Hx as (r0 & E & Hr0).
        destruct (proj1 (request_key_free_iff _ _) K r0 Hr0) as [_ Hne].
        contradiction.
    + apply Forall_app. split; [assumption|].
      constructor; [|constructor]. rewrite Hcode.
      apply tracking_code_of_format.
Qed.

(** C9.  An INSERT that goes through stores one new row, and its tracking
    code is the generated one, of the form [SC-] and eight characters among
    [A-Z0-9], whether the statement supplied a code or not; the INSERT goes
    through whenever the key and the generated code are not in the table
    yet.  In every reachable state the stored codes are pairwise distinct
    and all of that form.  No call of a writer changes the id or the
    tracking code of a stored request. *)
Theorem tracking_code_generated_unique_immutable :
  (forall new_id digest now c s s',
     insert_emergency_request new_id digest now c s = Ok s' ->
     exists r,
       emergency_requests s' = emergency_requests s ++ [r] /\
       Req.tracking_code r = tracking_code_of digest /\
       tracking_code_format (Req.tracking_code r) = true) /\
  (forall new_id digest now c s,
     (forall r0, In r0 (emergency_requests s) ->
        Req.id r0 <> new_id /\ Req.tracking_code r0 <> tracking_code_of digest) ->
     exists s', insert_emergency_request new_id digest now c s = Ok s') /\
  (forall s, reachable s ->
     NoDup (map Req.tracking_code (emergency_requests s)) /\
     forall r, In r (emergency_requests s) ->
       tracking_code_format (Req.tracking_code r) = true) /\
  (forall op s,
     exists tail,
       map identity (emergency_requests (run op s))
       = map identity (emergency_requests s) ++ tail).
Proof.
  split; [|split; [|split]].
  - intros new_id digest now c s s' H.
    destruct (insert_appends _ _ _ _ _ H) as (r & E & _ & Hcode & _).
    exists r. repeat split; auto. rewrite Hcode. apply tracking_code_of_format.
  - exact insert_succeeds.
  - intros s Hs. destruct (reachable_codes Hs) as [Hnd Hfmt].
    split; [assumption|]. intros r Hr.
    rewrite Forall_forall in Hfmt. apply Hfmt. now apply in_map.
  - intros op s. destruct (run_identities op s) as [->|(r & _ & -> & _)].
    + exists []. now rewrite app_nil_r.
    + eauto.
Qed.

Lemma tracking_code_generated_unique_immutable_witness :
  exists s' r,
    insert_emergency_request 205 (N.shiftl 3735928559 96) 40 columns_with_code
      scenario_A_after = Ok s' /\
    emergency_requests s' = emergency_requests scenario_A_after ++ [r] /\
    Req.tracking_code r = "SC-DEADBEEF"%string /\
    tracking_code_format (Req.tracking_code r) = true.
Proof.
  destruct (@insert_succeeds 205%N (N.shiftl 3735928559 96) 40%Z
              columns_with_code scenario_A_after) as [s' Hs'].
  { intros r0 [<-|[]]. split; discriminate. }
  destruct (proj1 tracking_code_generated_unique_immutable _ _ _ _ _ _ Hs')
    as (r & E & Hcode & Hfmt).
  exists s', r. repeat split; auto.
Defined.

(** * Further properties of the code *)

(** ** The geo-distance utility *)

Local Open Scope R_scope.



(** X1.  [calculateDistance] is symmetric: the distance from A to B is the
    distance from B to A. *)
Theorem calculateDistance_symmetric (lat1 lng1 lat2 lng2 : R) :
  calculateDistance lat1 lng1 lat2 lng2 = calculateDistance lat2 lng2 lat1 lng1.
Proof.
  unfold calculateDistance.
  replace ((lat1 - lat2) * PI / 180 / 2) with (- ((lat2 - lat1) * PI / 180 / 2))
    by lra.
  replace ((lng1 - lng2) * PI / 180 / 2) with (- ((lng2 - lng1) * PI / 180 / 2))
    by lra.
  rewrite !sin_neg.
  match goal with
  | |- _ * (_ * atan2 (sqrt ?a) _) = _ * (_ * atan2 (sqrt ?b) _) =>
    replace b with a by ring
  end.
  reflexivity.
Qed.

(** X2.  [calculateDistance] of a point to itself is 0. *)
Theorem calculateDistance_same_point (lat lng : R) :
  calculateDistance lat lng lat lng = 0.
Proof.
  unfold calculateDistance.
  replace ((lat - lat) * PI / 180 / 2) with 0 by lra.
  replace ((lng - lng) * PI / 180 / 2) with 0 by lra.
  rewrite sin_0.
  match goal with
  | |- _ * (_ * atan2 (sqrt ?a) (sqrt (1 - ?a))) = _ => replace a with 0 by ring
  end.
  rewrite Rminus_0_r, sqrt_0, sqrt_1.
  unfold atan2. destruct (Rlt_dec 0 1); [|lra].
  unfold Rdiv. rewrite Rmult_0_l, atan_0. ring.
Qed.


Local Close Scope R_scope.

(** ** The estimated time of arrival *)


Lemma Math_round_close (x : Q) :
  (x - (1 # 2) < inject_Z (Math_round x) /\ inject_Z (Math_round x) <= x + (1 # 2))%Q.
Proof.
  unfold Math_round. pose proof (Qfloor_le (x + (1 # 2))) as H1.
  pose proof (Qlt_floor (x + (1 # 2))) as H2.
  rewrite inject_Z_plus in H2. split; [|exact H1].
  change (inject_Z 1) with 1%Q in H2. lra.
Qed.




(** ** The tracking page *)

Lemma upper_ascii_alnum (c : ascii) :
  upper_alnum c = true -> upper_ascii c = c.
Proof.
  unfold upper_alnum, upper_ascii. intros H.
  destruct ((97 <=? nat_of_ascii c)%nat && (nat_of_ascii c <=? 122)%nat) eqn:E;
    [|reflexivity].
  exfalso. apply andb_true_iff in E. destruct E as [E1 E2].
  apply Nat.leb_le in E1, E2.
  apply orb_true_iff in H. destruct H as [H|H];
    apply andb_true_iff in H; destruct H as [H1 H2];
    apply Nat.leb_le in H1, H2; lia.
Qed.

Lemma UPPER_alnum (s : string) :
  string_forallb upper_alnum s = true -> UPPER s = s.
Proof.
  induction s as [|c s IH]; simpl; [reflexivity|].
  intros H. apply andb_true_iff in H. destruct H as [Hc Hs].
  now rewrite upper_ascii_alnum, IH.
Qed.

(** A code of the generated form is its own upper-casing. *)
Lemma UPPER_tracking_code (c : string) :
  tracking_code_format c = true -> UPPER c = c.
Proof.
  unfold tracking_code_format.
  destruct c as [|c1 c]; [discriminate|].
  destruct c1 as [[] [] [] [] [] [] [] []]; try discriminate.
  destruct c as [|c2 c]; [discriminate|].
  destruct c2 as [[] [] [] [] [] [] [] []]; try discriminate.
  destruct c as [|c3 c]; [discriminate|].
  destruct c3 as [[] [] [] [] [] [] [] []]; try discriminate.
  intros H. apply andb_true_iff in H. destruct H as [_ H].
  simpl. now rewrite UPPER_alnum.
Qed.

Lemma filter_none {A : Type} (p : A -> bool) (l : list A) :
  (forall x, In x l -> p x = false) -> filter p l = [].
Proof.
  induction l as [|x l IH]; simpl; intros H; [reflexivity|].
  rewrite (H x) by auto. auto.
Qed.

Lemma filter_singleton {A : Type} (p : A -> bool) (l : list A) (r : A) :
  NoDup l -> In r l -> p r = true ->
  (forall x, In x l -> p x = true -> x = r) ->
  filter p l = [r].
Proof.
  induction l as [|x l IH]; simpl; intros Hnd Hin Hr Huniq; [contradiction|].
  inversion Hnd as [|? ? Hnotin Hnd']; subst.
  destruct Hin as [->|Hin].
  - rewrite Hr. f_equal. apply filter_none. intros y Hy.
    destruct (p y) eqn:Py; [|reflexivity].
    exfalso. apply Hnotin. now rewrite <- (Huniq y (or_intror Hy) Py).
  - destruct (p x) eqn:Px.
    + exfalso. apply Hnotin. now rewrite (Huniq x (or_introl eq_refl) Px).
    + apply IH; auto.
Qed.

Lemma lookup_by_code (tbl : list Req.row) (r : Req.row) :
  NoDup (map Req.tracking_code tbl) -> In r tbl ->
  filter (fun x => String.eqb (Req.tracking_code x) (Req.tracking_code r)) tbl
  = [r].
Proof.
  intros Hnd Hin. apply filter_singleton; auto.
  - eapply NoDup_map_inv; eauto.
  - apply String.eqb_refl.
  - intros x Hx E. apply String.eqb_eq in E. eapply NoDup_map_eq; eauto.
Qed.



(** A request is found from any spelling whose upper-casing is its code,
    when the codes of the table are distinct. *)
Lemma fetchRequest_found (s : db) (st : TrackRequest.state) (r : Req.row)
  (typed : string) :
  NoDup (map Req.tracking_code (emergency_requests s)) ->
  In r (emergency_requests s) -> UPPER typed = Req.tracking_code r ->
  TrackRequest.request (TrackRequest.fetchRequest typed st s) = Some r.
Proof.
  intros Hnd Hr E. unfold TrackRequest.fetchRequest.
  rewrite E, lookup_by_code by assumption. simpl.
  destruct (Req.assigned_ambulance_id r) as [aid|]; [|reflexivity].
  unfold TrackRequest.fetchAmbulanceInfo.
  now destruct (single _).
Qed.


Lemma formatted_code_not_empty (c : string) :
  tracking_code_format c = true -> c <> EmptyString.
Proof. intros H ->. discriminate H. Qed.

(** X6.  The search box finds a request from its code typed in any letter
    case and with white space around it. *)
Theorem search_box_round_trip (s : db) (st : TrackRequest.state)
  (r : Req.row) (typed : string) :
  reachable s ->
  In r (emergency_requests s) ->
  UPPER (trim typed) = Req.tracking_code r ->
  TrackRequest.request (TrackRequest.handleSearch typed st s) = Some r.
Proof.
  intros Hs Hr E. unfold TrackRequest.handleSearch.
  destruct (trim typed) as [|c t] eqn:Et.
  - exfalso. destruct (reachable_codes Hs) as [_ Hfmt].
    rewrite Forall_forall in Hfmt.
    apply (@formatted_code_not_empty (Req.tracking_code r)).
    + apply Hfmt. now apply in_map.
    + now rewrite <- E.
  - destruct (reachable_codes Hs) as [Hnd _]. now apply fetchRequest_found.
Qed.

(** X7.  A request the form has just stored is the one the tracking page
    shows for the tracking code the INSERT returns. *)
Theorem submitted_request_is_trackable (s s' : db) (new_id : uuid) (digest : N)
  (now : timestamptz) (f : form_data) (st : TrackRequest.state) :
  reachable s ->
  handleSubmit new_id digest now f s = Ok s' ->
  exists r,
    emergency_requests s' = emergency_requests s ++ [r] /\
    Req.id r = new_id /\
    Req.tracking_code r = tracking_code_of digest /\
    TrackRequest.request
      (TrackRequest.fetchRequest (tracking_code_of digest) st s') = Some r.
Proof.
  intros Hs H.
  assert (Hs' : reachable s').
  { replace s' with (run (Submit new_id digest now f) s);
      [now apply reachable_run|]. simpl. now rewrite H. }
  unfold handleSubmit in H.
  destruct (insert_appends _ _ _ _ _ H) as (r & E & Hid & Hcode & _).
  exists r. repeat split; auto.
  destruct (reachable_codes Hs') as [Hnd Hfmt].
  rewrite <- Hcode. apply fetchRequest_found; [assumption| |].
  - rewrite E. apply in_or_app. right. now left.
  - rewrite Hcode. apply UPPER_tracking_code, tracking_code_of_format.
Qed.



Lemma search_box_round_trip_witness :
  exists r,
    In r (emergency_requests scenario_A_after) /\
    Req.id r = 201%N /\
    TrackRequest.request
      (TrackRequest.handleSearch "  sc-00000001 " (TrackRequest.mk None None)
         scenario_A_after) = Some r.
Proof.
  eexists. split; [vm_compute; left; reflexivity|]. split; [reflexivity|].
  apply (@search_box_round_trip scenario_A_after (TrackRequest.mk None None)).
  - exact scenario_A_after_reachable.
  - vm_compute. left. reflexivity.
  - reflexivity.
Defined.

Lemma submitted_request_is_trackable_witness :
  exists r,
    handleSubmit 201 (N.shiftl 1 96) 20 form_A scenario_A_db
    = Ok scenario_A_after /\
    Req.id r = 201%N /\
    TrackRequest.request
      (TrackRequest.fetchRequest "SC-00000001" (TrackRequest.mk None None)
         scenario_A_after) = Some r.
Proof.
  assert (H : handleSubmit 201 (N.shiftl 1 96) 20 form_A scenario_A_db
              = Ok scenario_A_after) by reflexivity.
  destruct (@submitted_request_is_trackable scenario_A_db scenario_A_after
              201%N (N.shiftl 1 96) 20%Z form_A (TrackRequest.mk None None)
              (reachable_initial scenario_A_db_initial) H)
    as (r & _ & Hid & _ & Hfound).
  exists r. repeat split; assumption.
Defined.




(** ** What the writers leave alone *)

Lemma Forall2_map_right {A : Type} (R : A -> A -> Prop) (g : A -> A)
  (l : list A) :
  (forall x, In x l -> R x (g x)) -> Forall2 R l (map g l).
Proof.
  induction l as [|x l IH]; simpl; intros H; constructor; auto.
Qed.

Lemma map_map_keeps {A B : Type} (f : A -> B) (g : A -> A) (l : list A) :
  (forall x, f (g x) = f x) -> map f (map g l) = map f l.
Proof. intros H. rewrite map_map. now apply map_ext. Qed.

(** X9.  The dispatch trigger changes at most one ambulance, and of that
    one only the status: registrations, positions and drivers of the fleet
    stay as they are, a changed row is the selected one, which was
    available with a driver and is now busy; of the new request the id,
    the tracking code, the location and [completed_at] stay as inserted. *)
Theorem dispatch_touches_only_selected (now : timestamptz)
  (tbl : list Amb.row) (NEW : Req.row) :
  NoDup (map Amb.id tbl) ->
  let tbl' := fst (auto_dispatch_ambulance now tbl NEW) in
  let NEW' := snd (auto_dispatch_ambulance now tbl NEW) in
  map registration tbl' = map registration tbl /\
  map position tbl' = map position tbl /\
  map Amb.driver_id tbl' = map Amb.driver_id tbl /\
  Forall2 (fun a a' =>
             a' = a \/
             (Amb.status a = Amb.available /\ Amb.driver_id a <> None /\
              Req.assigned_ambulance_id NEW' = Some (Amb.id a) /\
              a' = Amb.apply busy_patch now a))
          tbl tbl' /\
  identity NEW' = identity NEW /\
  Req.location_lat NEW' = Req.location_lat NEW /\
  Req.location_lng NEW' = Req.location_lng NEW /\
  Req.completed_at NEW' = Req.completed_at NEW.
Proof.
  intros Hnd tbl' NEW'. subst tbl' NEW'.
  destruct (auto_dispatch_cases now tbl NEW) as [->|(a & Hin & Hc & _ & _ & ->)];
    simpl.
  - repeat split; auto.
    rewrite <- (map_id tbl) at 2. apply Forall2_map_right. auto.
  - unfold update_ambulance_by_id.
    repeat split; try (apply map_map_keeps; intros x;
                       now destruct (N.eqb (Amb.id x) (Amb.id a))).
    apply Forall2_map_right. intros x Hx.
    destruct (N.eqb (Amb.id x) (Amb.id a)) eqn:E; [|now left].
    right. apply N.eqb_eq in E.
    assert (x = a) by (eapply NoDup_map_eq; eauto). subst x.
    apply candidate_iff in Hc. destruct Hc as [Hav [d Hd]].
    repeat split; auto. congruence.
Qed.

Lemma rls_update_checked {row : Type} (w v : row -> bool) (f : row -> row)
  (viol : row -> option pg_error) (tbl tbl' : list row) :
  rls_update w v f viol tbl = Ok tbl' ->
  forall r, In r tbl -> w r && v r = true -> viol (f r) = None.
Proof.
  revert tbl'. induction tbl as [|x tbl IH]; simpl; intros tbl' H r Hin Hr;
    [contradiction|].
  destruct (w x && v x) eqn:E.
  - destruct (viol (f x)) eqn:V; [discriminate|].
    destruct (rls_update w v f viol tbl) eqn:U; [|discriminate].
    destruct Hin as [<-|Hin]; [assumption|]. eapply IH; eauto.
  - destruct (rls_update w v f viol tbl) eqn:U; [|discriminate].
    destruct Hin as [<-|Hin]; [congruence|]. eapply IH; eauto.
Qed.

Lemma sql_eq_true (x y : option uuid) : sql_eq x y = true -> x = y.
Proof.
  destruct x, y; simpl; try discriminate. intros H. apply N.eqb_eq in H.
  congruence.
Qed.


(** X10.  [assignDriverToAmbulance] touches no request and, of the
    ambulances, only the driver column; in a session without the admin role
    no driver changes either, and in an admin session the driver of the
    named ambulance, and of no other, becomes the selected one. *)
Theorem driver_assignment_needs_admin (uid : option uuid) (now : timestamptz)
  (aid : uuid) (did : option uuid) (s : db) :
  let s' := fst (AdminDashboard.assignDriverToAmbulance uid now aid did s) in
  emergency_requests s' = emergency_requests s /\
  map registration (ambulances s') = map registration (ambulances s) /\
  map position (ambulances s') = map position (ambulances s) /\
  map Amb.status (ambulances s') = map Amb.status (ambulances s) /\
  (has_role s uid admin = false ->
   map Amb.driver_id (ambulances s') = map Amb.driver_id (ambulances s)) /\
  (has_role s uid admin = true ->
   ambulances s'
   = map (fun a => if N.eqb (Amb.id a) aid
                   then Amb.apply (Amb.mk_patch (Some did) None None None) now a
                   else a)
         (ambulances s)).
Proof.
  intros s'. subst s'. unfold AdminDashboard.assignDriverToAmbulance.
  destruct (update_ambulances s uid aid (Amb.mk_patch (Some did) None None None) now)
    as [tbl|e] eqn:E; simpl.
  - pose proof (rls_update_checked _ _ _ _ _ E) as Hchk.
    apply rls_update_Ok in E. subst tbl.
    split; [reflexivity|].
    split; [apply map_map_keeps; intros a; now destruct (_ && _)|].
    split; [apply map_map_keeps; intros a; now destruct (_ && _)|].
    split; [apply map_map_keeps; intros a; now destruct (_ && _)|].
    split.
    + intros Hadmin. rewrite map_map. apply map_ext_in. intros a Ha.
      destruct (N.eqb (Amb.id a) aid && ambulances_update_policy s uid a) eqn:C;
        [|reflexivity].
      specialize (Hchk a Ha C). unfold ambulance_violation in Hchk.
      destruct (ambulances_update_policy s uid
                  (Amb.apply (Amb.mk_patch (Some did) None None None) now a))
        eqn:P; [|discriminate]. clear Hchk.
      apply andb_true_iff in C. destruct C as [_ C].
      unfold ambulances_update_policy in C, P. rewrite Hadmin, orb_false_r in C, P.
      simpl in P. apply sql_eq_true in C, P. simpl. congruence.
    + intros Hadmin. apply map_ext. intros a.
      unfold ambulances_update_policy. rewrite Hadmin, orb_true_r, andb_true_r.
      reflexivity.
  - repeat split; auto.
    intros Hadmin. exfalso.
    unfold update_ambulances in E.
    rewrite rls_update_safe in E; [discriminate|].
    intros a _ _. unfold ambulance_violation, ambulances_update_policy.
    now rewrite Hadmin, orb_true_r.
Qed.




(** X12.  In a session without the admin role, [updateRequestStatus]
    changes only requests assigned to the caller and only ambulances the
    caller drives, whatever request id and dashboard state it is called
    with; the roles stay as they are. *)
Theorem status_update_writes_own_rows (uid : option uuid)
  (st : DriverDashboard.state) (now : timestamptz) (rid : uuid)
  (ns : Req.status_t) (s : db) :
  has_role s uid admin = false ->
  let s' := fst (DriverDashboard.updateRequestStatus uid st now rid ns s) in
  Forall2 (fun r r' => r' = r \/ Req.assigned_driver_id r = uid)
          (emergency_requests s) (emergency_requests s') /\
  Forall2 (fun a a' => a' = a \/ Amb.driver_id a = uid)
          (ambulances s) (ambulances s') /\
  user_roles s' = user_roles s.
Proof.
  intros Hadmin s'. subst s'. rewrite updateRequestStatus_unfold. cbv zeta.
  assert (Hreq : Forall2 (fun r r' => r' = r \/ Req.assigned_driver_id r = uid)
            (emergency_requests s)
            (map (fun r => if N.eqb (Req.id r) rid
                              && requests_update_policy s uid r
                           then Req.apply (DriverDashboard.status_patch ns now) now r
                           else r)
                 (emergency_requests s))).
  { apply Forall2_map_right. intros r _.
    destruct (N.eqb (Req.id r) rid); simpl; [|now left].
    unfold requests_update_policy. rewrite Hadmin, orb_false_r.
    destruct (sql_eq (Req.assigned_driver_id r) uid) eqn:E; [|now left].
    right. now apply sql_eq_true. }
  destruct (DriverDashboard.ambulance st) as [amb|]; simpl.
  - split; [exact Hreq|]. split; [|reflexivity].
    apply Forall2_map_right. intros a _.
    destruct (N.eqb (Amb.id a) (Amb.id amb)); simpl; [|now left].
    unfold ambulances_update_policy. rewrite Hadmin, orb_false_r.
    destruct (sql_eq (Amb.driver_id a) uid) eqn:E; [|now left].
    right. now apply sql_eq_true.
  - split; [exact Hreq|]. split; [|reflexivity].
    rewrite <- (map_id (ambulances s)) at 2. apply Forall2_map_right. auto.
Qed.

(** X13.  [updateRequestStatus] never changes the id, tracking code,
    location or assignment of a request, nor the registration or driver of
    an ambulance; ambulance positions move only on [arrived] with the
    request on the dashboard; a changed request has the new status and a
    [completed_at] that is the time of the call for [completed] and null
    otherwise. *)
Theorem status_update_frame (uid : option uuid)
  (st : DriverDashboard.state) (now : timestamptz) (rid : uuid)
  (ns : Req.status_t) (s : db) :
  let s' := fst (DriverDashboard.updateRequestStatus uid st now rid ns s) in
  map (fun r => (identity r, Req.location_lat r, Req.location_lng r,
                 Req.assigned_ambulance_id r, Req.assigned_driver_id r))
      (emergency_requests s')
  = map (fun r => (identity r, Req.location_lat r, Req.location_lng r,
                   Req.assigned_ambulance_id r, Req.assigned_driver_id r))
        (emergency_requests s) /\
  map registration (ambulances s') = map registration (ambulances s) /\
  map Amb.driver_id (ambulances s') = map Amb.driver_id (ambulances s) /\
  (ns <> Req.arrived \/
   find (fun r => N.eqb (Req.id r) rid) (DriverDashboard.requests st) = None ->
   map position (ambulances s') = map position (ambulances s)) /\
  (forall r', In r' (emergency_requests s') ->
     In r' (emergency_requests s) \/
     (Req.status r' = ns /\
      Req.completed_at r' = if Req.status_eqb ns Req.completed
                            then Some now else None)).
Proof.
  intros s'. subst s'. rewrite updateRequestStatus_unfold. cbv zeta.
  assert (Hreq : forall l,
            map (fun r => (identity r, Req.location_lat r, Req.location_lng r,
                           Req.assigned_ambulance_id r, Req.assigned_driver_id r))
                (map (fun r => if N.eqb (Req.id r) rid
                                  && requests_update_policy s uid r
                               then Req.apply (DriverDashboard.status_patch ns now) now r
                               else r) l)
            = map (fun r => (identity r, Req.location_lat r, Req.location_lng r,
                             Req.assigned_ambulance_id r, Req.assigned_driver_id r)) l).
  { intros l. apply map_map_keeps. intros r. now destruct (_ && _). }
  assert (Hrows : forall r',
            In r' (map (fun r => if N.eqb (Req.id r) rid
                                    && requests_update_policy s uid r
                                 then Req.apply (DriverDashboard.status_patch ns now) now r
                                 else r) (emergency_requests s)) ->
            In r' (emergency_requests s) \/
            (Req.status r' = ns /\
             Req.completed_at r' = if Req.status_eqb ns Req.completed
                                   then Some now else None)).
  { intros r' Hin. apply in_map_iff in Hin. destruct Hin as (r & <- & Hr).
    destruct (_ && _); [right|left]; auto. }
  destruct (DriverDashboard.ambulance st) as [amb|]; simpl.
  - split; [apply Hreq|].
    split; [apply map_map_keeps; intros a; now destruct (_ && _)|].
    split.
    { apply map_map_keeps. intros a. destruct (_ && _); [|reflexivity].
      simpl. now rewrite updateData_keeps_driver. }
    split; [|exact Hrows].
    intros Hns. apply map_map_keeps. intros a.
    destruct (_ && _); [|reflexivity].
    destruct Hns as [Hns|Hnone].
    + destruct ns; try contradiction;
        now destruct (find _ (DriverDashboard.requests st)).
    + rewrite Hnone. now destruct ns.
  - split; [apply Hreq|]. repeat split; auto.
Qed.

Lemma filter_map_keeps {A : Type} (p : A -> bool) (g : A -> A) (l : list A) :
  (forall x, p (g x) = p x) -> filter p (map g l) = map g (filter p l).
Proof.
  intros H. induction l as [|x l IH]; simpl; [reflexivity|].
  rewrite H. destruct (p x); simpl; now rewrite IH.
Qed.

Lemma status_update_keys (uid : option uuid) (st : DriverDashboard.state)
  (now : timestamptz) (rid : uuid) (ns : Req.status_t) (s : db) :
  let s' := fst (DriverDashboard.updateRequestStatus uid st now rid ns s) in
  map Req.id (emergency_requests s') = map Req.id (emergency_requests s) /\
  map Amb.id (ambulances s') = map Amb.id (ambulances s) /\
  forall u,
    filter (fun x => sql_eq (Amb.driver_id x) (Some u)) (ambulances s') = []
    <-> filter (fun x => sql_eq (Amb.driver_id x) (Some u)) (ambulances s) = [].
Proof.
  intros s'. subst s'. rewrite updateRequestStatus_unfold. cbv zeta.
  split.
  { destruct (DriverDashboard.ambulance st) as [amb|]; simpl;
      apply map_map_keeps; intros x; now destruct (_ && _). }
  destruct (DriverDashboard.ambulance st) as [amb|]; simpl.
  - split; [apply map_map_keeps; intros a; now destruct (_ && _)|].
    intros u. rewrite filter_map_keeps.
    + split; intros H; [now apply map_eq_nil in H|now rewrite H].
    + intros a. destruct (_ && _); [|reflexivity]. simpl.
      now rewrite updateData_keeps_driver.
  - split; [reflexivity|]. tauto.
Qed.

(** X14.  A trip from start to end: when the assigned driver selects
    [arrived] and then [completed], each on a freshly loaded dashboard, the
    request ends completed at the time of the second call, and the ambulance
    ends available with its driver, a candidate for dispatch again,
    standing at the location of the request and not at its base station,
    which is unchanged. *)
Theorem arrived_then_completed (s : db) (u : uuid) (now1 now2 : timestamptz)
  (r : Req.row) (a : Amb.row) :
  NoDup (map Req.id (emergency_requests s)) ->
  NoDup (map Amb.id (ambulances s)) ->
  In r (emergency_requests s) ->
  Req.assigned_driver_id r = Some u ->
  DriverDashboard.listed_status (Req.status r) = true ->
  DriverDashboard.ambulance
    (DriverDashboard.fetchData (Some u) DriverDashboard.initial s) = Some a ->
  let s1 := fst (DriverDashboard.updateRequestStatus (Some u)
                   (DriverDashboard.fetchData (Some u) DriverDashboard.initial s)
                   now1 (Req.id r) Req.arrived s) in
  let s2 := fst (DriverDashboard.updateRequestStatus (Some u)
                   (DriverDashboard.fetchData (Some u) DriverDashboard.initial s1)
                   now2 (Req.id r) Req.completed s1) in
  (exists r2, In r2 (emergency_requests s2) /\ Req.id r2 = Req.id r) /\
  (forall r2, In r2 (emergency_requests s2) -> Req.id r2 = Req.id r ->
     Req.status r2 = Req.completed /\ Req.completed_at r2 = Some now2) /\
  (exists a2, In a2 (ambulances s2) /\ Amb.id a2 = Amb.id a) /\
  (forall a2, In a2 (ambulances s2) -> Amb.id a2 = Amb.id a ->
     Amb.status a2 = Amb.available /\
     Amb.driver_id a2 = Some u /\
     candidate a2 = true /\
     Amb.current_lat a2 = Some (Req.location_lat r) /\
     Amb.current_lng a2 = Some (Req.location_lng r) /\
     Amb.base_lat a2 = Amb.base_lat a /\
     Amb.base_lng a2 = Amb.base_lng a).
Proof.
  intros Hndr Hnda Hr Hdrv Hlisted Hamb s1 s2.
  destruct (@status_select_effect s u now1 r a Req.arrived
              Hndr Hnda Hr Hdrv Hlisted Hamb) as (Hr1 & _ & Ha1 & _).
  fold s1 in Hr1, Ha1.
  set (r1 := Req.apply (DriverDashboard.status_patch Req.arrived now1) now1 r) in *.
  set (a1 := Amb.apply (DriverDashboard.updateData Req.arrived (Some r)) now1 a) in *.
  destruct (fetchData_ambulance_In _ _ Hamb) as [Hain Hadrv].
  (* the keys and the driver's dashboard after the first call *)
  assert (Hndr1 : NoDup (map Req.id (emergency_requests s1))).
  { unfold s1. now rewrite (proj1 (status_update_keys _ _ _ _ _ _)). }
  assert (Hnda1 : NoDup (map Amb.id (ambulances s1))).
  { unfold s1. now rewrite (proj1 (proj2 (status_update_keys _ _ _ _ _ _))). }
  assert (Hamb1 : DriverDashboard.ambulance
            (DriverDashboard.fetchData (Some u) DriverDashboard.initial s1)
          = Some a1).
  { simpl.
    assert (E : filter (fun x => sql_eq (Amb.driver_id x) (Some u)) (ambulances s1)
                = [a1]).
    { unfold s1. rewrite updateRequestStatus_unfold. cbv zeta.
      rewrite Hamb. simpl. rewrite filter_map_keeps.
      - rewrite (fetchData_ambulance _ _ Hamb). simpl.
        unfold ambulances_update_policy. rewrite Hadrv. simpl.
        rewrite !N.eqb_refl. simpl.
        rewrite (@find_request_by_id (emergency_requests s)); auto.
        + intros x Hx. now apply fetchData_requests in Hx.
        + apply fetchData_requests. auto.
      - intros x. destruct (_ && _); [|reflexivity]. simpl.
        now destruct (find _ _). }
    now rewrite E. }
  destruct (@status_select_effect s1 u now2 r1 a1 Req.completed
              Hndr1 Hnda1 Hr1 Hdrv eq_refl Hamb1) as (Hr2 & Hreq2 & Ha2 & Hrow2).
  fold s2 in Hr2, Hreq2, Ha2, Hrow2.
  split; [eexists; split; [exact Hr2|reflexivity]|].
  split.
  { intros r2 Hin Hid. now rewrite (Hreq2 r2 Hin Hid). }
  split; [eexists; split; [exact Ha2|reflexivity]|].
  intros a2 Hin Hid. rewrite (Hrow2 a2 Hin Hid). simpl.
  unfold candidate. simpl. rewrite Hadrv. auto 10.
Qed.

(** ** Invariants of the lifecycle *)

Lemma status_eqb_completed (st : Req.status_t) :
  Req.status_eqb st Req.completed = true <-> st = Req.completed.
Proof. destruct st; simpl; split; congruence. Qed.

Lemma status_patch_consistent (ns : Req.status_t) (now : timestamptz)
  (r : Req.row) :
  select_item ns = true ->
  lifecycle_consistent r ->
  DriverDashboard.listed_status (Req.status r) = true ->
  lifecycle_consistent (Req.apply (DriverDashboard.status_patch ns now) now r).
Proof.
  intros Hsel [_ Hp] Hlisted.
  destruct (listed_not_pending _ Hlisted) as [Hnp _].
  unfold lifecycle_consistent. simpl. split.
  - destruct ns; simpl in *; try discriminate; split; congruence.
  - split.
    + intros H. apply Hp in H. contradiction.
    + intros ->. discriminate Hsel.
Qed.

(** X15.  In every state the pages reach, the lifecycle columns of every
    request agree: [completed_at] is set exactly when the status is
    [completed], and the request is without an ambulance exactly when it is
    [pending]. *)
Theorem lifecycle_columns_agree (s : db) :
  ui_reachable s ->
  forall r, In r (emergency_requests s) -> lifecycle_consistent r.
Proof.
  induction 1 as [s [Hnil _]|s op Hs IH Hoff].
  - rewrite Hnil. intros r [].
  - pose proof (ui_reachable_invariant Hs) as (Hnda & Hndr & _).
    destruct op as [new_id digest now f|user now rid ns|user now rid aid].
    + unfold ui_run, ui_call.
      destruct (submit_effect new_id digest now f s)
        as [->|[_ [->|(a & _ & _ & ->)]]]; simpl; auto;
        intros r Hr; apply in_app_iff in Hr;
        (destruct Hr as [Hr|[<-|[]]]; [now apply IH|]);
        unfold lifecycle_consistent; simpl;
        repeat split; congruence.
    + destruct (@status_select_offered user now rid ns s Hoff)
        as (r0 & Hr0 & Hid0 & _ & Hlisted0 & Hsel & -> & _).
      intros r' Hr'. apply in_map_iff in Hr'. destruct Hr' as (r & <- & Hr).
      destruct (N.eqb (Req.id r) rid) eqn:E; simpl; [|now apply IH].
      destruct (requests_update_policy s (Some user) r); [|now apply IH].
      apply N.eqb_eq in E.
      assert (r = r0) by (eapply NoDup_map_eq; eauto; congruence). subst r0.
      apply status_patch_consistent; auto.
    + destruct (@assign_select_offered user now rid aid s Hnda Hoff)
        as [->|(a0 & d & r0 & _ & _ & _ & _ & Hr0 & Hid0 & Hp0 & ->)];
        [exact IH|].
      simpl. intros r' Hr'. apply in_map_iff in Hr'.
      destruct Hr' as (r & <- & Hr).
      destruct (N.eqb (Req.id r) rid) eqn:E; [|now apply IH].
      apply N.eqb_eq in E.
      assert (r = r0) by (eapply NoDup_map_eq; eauto; congruence). subst r0.
      destruct (IH r Hr) as [Hc _].
      unfold lifecycle_consistent. simpl. split.
      * rewrite Hc. rewrite Hp0. split; discriminate.
      * split; discriminate.
Qed.


(** The request table after a gesture the pages offer: the old rows, each
    with its creation time, followed by the new ones; a pending row is
    rewritten only by an assignment of that request. *)
Lemma ui_run_requests_shape (s : db) (op : ui_operation) :
  NoDup (map Amb.id (ambulances s)) ->
  NoDup (map Req.id (emergency_requests s)) ->
  ui_offered op s = true ->
  exists g extra,
    emergency_requests (ui_run op s) = map g (emergency_requests s) ++ extra /\
    (forall x, Req.created_at (g x) = Req.created_at x) /\
    (forall x, In x (emergency_requests s) -> Req.status x = Req.pending ->
       g x = x \/ exists user now aid, op = UiAssignSelect user now (Req.id x) aid).
Proof.
  intros Hnda Hndr Hoff.
  destruct op as [new_id digest now f|user now rid ns|user now rid aid].
  - exists (fun x => x). unfold ui_run, ui_call.
    destruct (submit_effect new_id digest now f s)
      as [->|[_ [->|(a & _ & _ & ->)]]]; simpl;
      [exists []; rewrite app_nil_r|eexists|eexists];
      rewrite map_id; auto.
  - destruct (@status_select_offered user now rid ns s Hoff)
      as (r0 & Hr0 & Hid0 & _ & Hlisted0 & _ & -> & _).
    eexists _, []. rewrite app_nil_r. split; [reflexivity|].
    split; [intros x; now destruct (_ && _)|].
    intros x Hx Hp. left.
    destruct (N.eqb (Req.id x) rid) eqn:E; [|reflexivity].
    apply N.eqb_eq in E.
    assert (x = r0) by (eapply NoDup_map_eq; eauto; congruence). subst r0.
    rewrite Hp in Hlisted0. discriminate.
  - destruct (@assign_select_offered user now rid aid s Hnda Hoff)
      as [->|(a0 & d & r0 & _ & _ & _ & _ & _ & _ & _ & ->)].
    + exists (fun x => x), []. rewrite app_nil_r, map_id. auto.
    + eexists _, []. rewrite app_nil_r. simpl. split; [reflexivity|].
      split; [intros x; now destruct (N.eqb _ _)|].
      intros x Hx Hp. destruct (N.eqb (Req.id x) rid) eqn:E; [|now left].
      apply N.eqb_eq in E. subst rid. right. eauto.
Qed.

(** X17.  A pending request is taken up only by the administrator: after
    any gesture the pages offer, other than an assignment of that very
    request, the pending request is still stored unchanged.  No later
    request form and no status change dispatches it. *)
Theorem pending_request_waits_for_admin (s : db) (op : ui_operation)
  (r : Req.row) :
  ui_reachable s -> ui_offered op s = true ->
  In r (emergency_requests s) -> Req.status r = Req.pending ->
  In r (emergency_requests (ui_run op s)) \/
  exists user now aid, op = UiAssignSelect user now (Req.id r) aid.
Proof.
  intros Hs Hoff Hr Hp.
  pose proof (ui_reachable_invariant Hs) as (Hnda & Hndr & _).
  destruct (@ui_run_requests_shape s op Hnda Hndr Hoff)
    as (g & extra & E & _ & Hpending).
  destruct (Hpending r Hr Hp) as [Hg|H]; [left|now right].
  rewrite E. apply in_or_app. left. rewrite <- Hg. now apply in_map.
Qed.

(** ** The properties above on the worked states *)

Lemma dispatch_touches_only_selected_witness :
  NoDup (map Amb.id scenario_A_fleet) /\
  map registration (fst (auto_dispatch_ambulance 20 scenario_A_fleet scenario_A_NEW))
  = map registration scenario_A_fleet /\
  map position (fst (auto_dispatch_ambulance 20 scenario_A_fleet scenario_A_NEW))
  = map position scenario_A_fleet.
Proof.
  assert (H : NoDup (map Amb.id scenario_A_fleet))
    by (simpl; repeat constructor; simpl; intuition discriminate).
  split; [exact H|].
  destruct (@dispatch_touches_only_selected 20%Z scenario_A_fleet scenario_A_NEW H)
    as (Hreg & Hpos & _).
  split; assumption.
Defined.

Lemma driver_assignment_needs_admin_witness :
  has_role scenario_C_db (Some 1%N) admin = false /\
  map Amb.driver_id
    (ambulances (fst (AdminDashboard.assignDriverToAmbulance (Some 1%N) 30 102
                        (Some 1%N) scenario_C_db)))
  = map Amb.driver_id (ambulances scenario_C_db) /\
  has_role scenario_C_db (Some 9%N) admin = true /\
  map Amb.driver_id
    (ambulances (fst (AdminDashboard.assignDriverToAmbulance (Some 9%N) 30 102
                        None scenario_C_db)))
  = [Some 1%N; None].
Proof.
  assert (H1 : has_role scenario_C_db (Some 1%N) admin = false) by reflexivity.
  assert (H9 : has_role scenario_C_db (Some 9%N) admin = true) by reflexivity.
  split; [exact H1|]. split.
  - destruct (driver_assignment_needs_admin (Some 1%N) 30%Z 102%N (Some 1%N)
                scenario_C_db) as (_ & _ & _ & _ & Hkeep & _).
    exact (Hkeep H1).
  - split; [exact H9|].
    destruct (driver_assignment_needs_admin (Some 9%N) 30%Z 102%N None
                scenario_C_db) as (_ & _ & _ & _ & _ & Hset).
    rewrite (Hset H9). reflexivity.
Defined.


Lemma status_update_writes_own_rows_witness :
  has_role scenario_C_db (Some 1%N) admin = false /\
  Forall2 (fun r r' => r' = r \/ Req.assigned_driver_id r = Some 1%N)
    (emergency_requests scenario_C_db)
    (emergency_requests
       (fst (DriverDashboard.updateRequestStatus (Some 1%N) scenario_C_dashboard_1
               30 203 Req.completed scenario_C_db))).
Proof.
  assert (H1 : has_role scenario_C_db (Some 1%N) admin = false) by reflexivity.
  split; [exact H1|].
  exact (proj1 (@status_update_writes_own_rows (Some 1%N) scenario_C_dashboard_1
                  30%Z 203%N Req.completed scenario_C_db H1)).
Defined.

Lemma status_update_frame_witness :
  Req.completed <> Req.arrived /\
  map position
    (ambulances
       (fst (DriverDashboard.updateRequestStatus (Some 1%N)
               (DriverDashboard.fetchData (Some 1%N) DriverDashboard.initial
                  scenario_D_db)
               30 204 Req.completed scenario_D_db)))
  = map position (ambulances scenario_D_db).
Proof.
  assert (H : Req.completed <> Req.arrived) by discriminate.
  split; [exact H|].
  destruct (status_update_frame (Some 1%N)
              (DriverDashboard.fetchData (Some 1%N) DriverDashboard.initial
                 scenario_D_db)
              30%Z 204%N Req.completed scenario_D_db) as (_ & _ & _ & Hpos & _).
  exact (Hpos (or_introl H)).
Defined.

Lemma arrived_then_completed_witness :
  In req_D (emergency_requests scenario_D_db) /\
  Req.assigned_driver_id req_D = Some 1%N /\
  exists a2,
    In a2 (ambulances
             (fst (DriverDashboard.updateRequestStatus (Some 1%N)
                     (DriverDashboard.fetchData (Some 1%N) DriverDashboard.initial
                        (fst (DriverDashboard.updateRequestStatus (Some 1%N)
                                (DriverDashboard.fetchData (Some 1%N)
                                   DriverDashboard.initial scenario_D_db)
                                30 204 Req.arrived scenario_D_db)))
                     40 204 Req.completed
                     (fst (DriverDashboard.updateRequestStatus (Some 1%N)
                             (DriverDashboard.fetchData (Some 1%N)
                                DriverDashboard.initial scenario_D_db)
                             30 204 Req.arrived scenario_D_db))))) /\
    Amb.id a2 = 101%N /\
    Amb.status a2 = Amb.available /\
    Amb.current_lat a2 = Some 9.081%Q /\
    Amb.base_lat a2 = Some 9.0765%Q.
Proof.
  split; [now left|]. split; [reflexivity|].
  destruct (@arrived_then_completed scenario_D_db 1%N 30%Z 40%Z req_D amb_1_busy
              (proj1 scenario_D_keys) (proj2 scenario_D_keys)
              (or_introl eq_refl) eq_refl eq_refl eq_refl)
    as (_ & _ & (a2 & Hin & Hid) & Hall).
  exists a2. split; [exact Hin|].
  destruct (Hall a2 Hin Hid) as (Hst & _ & _ & Hlat & _ & Hbase & _).
  split; [exact Hid|]. split; [exact Hst|]. split; [exact Hlat|exact Hbase].
Defined.

Lemma lifecycle_columns_agree_witness :
  exists r,
    In r (emergency_requests race_db3) /\ Req.id r = 301%N /\
    lifecycle_consistent r.
Proof.
  eexists. split; [vm_compute; left; reflexivity|]. split; [reflexivity|].
  apply (@lifecycle_columns_agree race_db3 race_db3_ui_reachable).
  vm_compute. left. reflexivity.
Defined.


Lemma pending_request_waits_for_admin_witness :
  exists r,
    In r (emergency_requests race_db3) /\ Req.id r = 302%N /\
    Req.status r = Req.pending /\
    In r (emergency_requests
            (ui_run (UiSubmit 303 (N.shiftl 3 96) 13 form_A) race_db3)).
Proof.
  eexists. split; [vm_compute; right; left; reflexivity|].
  split; [reflexivity|]. split; [reflexivity|].
  destruct (@pending_request_waits_for_admin race_db3
              (UiSubmit 303 (N.shiftl 3 96) 13 form_A) _
              race_db3_ui_reachable eq_refl (or_intror (or_introl eq_refl)) eq_refl)
    as [H|(user & now & aid & H)]; [exact H|discriminate H].
Defined.

(** ** The registration of an ambulance *)

Lemma update_ambulances_registration (s : db) (uid : option uuid) (aid : uuid)
  (p : Amb.patch) (now : timestamptz) :
  map registration
    (ambulances (ambulances_after (update_ambulances s uid aid p now) s))
  = map registration (ambulances s).
Proof.
  destruct (update_ambulances s uid aid p now) as [tbl|e] eqn:E; simpl;
    [|reflexivity].
  apply rls_update_Ok in E. subst tbl.
  apply map_map_keeps. intros a. now destruct (_ && _).
Qed.

Lemma run_registration (op : operation) (s : db) :
  exists added,
    map registration (ambulances (run op s))
    = map registration (ambulances s) ++ added /\
    Forall no_base added /\
    user_roles (run op s) = user_roles s.
Proof.
  destruct op as [new_id digest now f|uid st now rid ns|uid st now rid aid
                 |uid now aid did|uid new_id now plate].
  - exists []. rewrite app_nil_r. split; [|split; [constructor|]].
    + destruct (submit_effect new_id digest now f s)
        as [->|[_ [->|(a & _ & _ & ->)]]]; simpl; auto.
      unfold update_ambulance_by_id. apply map_map_keeps. intros x.
      now destruct (N.eqb _ _).
    + destruct (submit_effect new_id digest now f s)
        as [->|[_ [->|(a & _ & _ & ->)]]]; reflexivity.
  - exists []. rewrite app_nil_r. simpl.
    rewrite updateRequestStatus_unfold. cbv zeta.
    destruct (DriverDashboard.ambulance st) as [amb|]; simpl;
      (split; [|split; [constructor|reflexivity]]); [|reflexivity].
    apply map_map_keeps. intros a. now destruct (_ && _).
  - exists []. rewrite app_nil_r. simpl.
    unfold AdminDashboard.assignAmbulance.
    destruct (AdminDashboard.optional_chain _ _) as [d|]; simpl;
      [|split; [reflexivity|split; [constructor|reflexivity]]].
    destruct (update_emergency_requests s uid rid _ now) as [tbl|e]; simpl;
      [|split; [reflexivity|split; [constructor|reflexivity]]].
    split; [|split; [constructor|]].
    + apply (update_ambulances_registration (with_emergency_requests tbl s)).
    + now destruct (update_ambulances _ _ _ _ _).
  - exists []. rewrite app_nil_r. simpl.
    unfold AdminDashboard.assignDriverToAmbulance.
    pose proof (update_ambulances_registration s uid aid
                  (Amb.mk_patch (Some did) None None None) now) as H.
    destruct (update_ambulances s uid aid _ now) as [tbl|e]; simpl in *;
      (split; [exact H|split; [constructor|reflexivity]]).
  - simpl. unfold AdminDashboard.createAmbulance.
    destruct (string_forallb AdminDashboard.is_space plate);
      [exists []; rewrite app_nil_r; simpl; auto|].
    destruct (has_role s uid admin); simpl;
      [|exists []; rewrite app_nil_r; simpl; auto].
    destruct (AdminDashboard.ambulance_key_free _ _); simpl;
      [|exists []; rewrite app_nil_r; simpl; auto].
    eexists [_]. rewrite map_app. simpl. split; [reflexivity|].
    split; [|reflexivity]. repeat constructor.
Qed.

(** X18.  The registration of an ambulance is permanent: whatever calls of
    the writers are made, with whatever arguments and on whatever dashboard
    state, the ids, plate numbers and base stations of the fleet stay as
    they are and in place; the fleet only grows at its end, by ambulances
    without a base station; and no call writes the roles. *)
Theorem registration_is_permanent (ops : list operation) (s : db) :
  exists added,
    map registration (ambulances (run_all ops s))
    = map registration (ambulances s) ++ added /\
    Forall no_base added /\
    user_roles (run_all ops s) = user_roles s.
Proof.
  revert s. induction ops as [|op ops IH]; intros s; simpl.
  - exists []. rewrite app_nil_r. auto.
  - destruct (run_registration op s) as (add1 & E1 & F1 & R1).
    destruct (IH (run op s)) as (add2 & E2 & F2 & R2).
    exists (add1 ++ add2). unfold run_all in *.
    rewrite E2, E1, <- app_assoc. split; [reflexivity|].
    split; [now apply Forall_app|congruence].
Qed.

(** ** Manual assignment without the admin role *)

(** X19.  In a session without the admin role, [assignAmbulance] changes
    the driver of no request, writes only requests assigned to the caller
    and ambulances the caller drives, and leaves every request without a
    driver as it is. *)
Theorem manual_assignment_requires_admin (uid : option uuid)
  (st : AdminDashboard.state) (now : timestamptz) (rid aid : uuid) (s : db) :
  has_role s uid admin = false ->
  let s' := fst (AdminDashboard.assignAmbulance uid st now rid aid s) in
  map Req.assigned_driver_id (emergency_requests s')
  = map Req.assigned_driver_id (emergency_requests s) /\
  Forall2 (fun r r' => r' = r \/ sql_eq (Req.assigned_driver_id r) uid = true)
          (emergency_requests s) (emergency_requests s') /\
  Forall2 (fun a a' => a' = a \/ sql_eq (Amb.driver_id a) uid = true)
          (ambulances s) (ambulances s') /\
  (forall r, In r (emergency_requests s) -> Req.assigned_driver_id r = None ->
             In r (emergency_requests s')).
Proof.
  intros Hadmin s'.
  assert (Hsame : s' = s ->
            map Req.assigned_driver_id (emergency_requests s')
            = map Req.assigned_driver_id (emergency_requests s) /\
            Forall2 (fun r r' => r' = r \/ sql_eq (Req.assigned_driver_id r) uid = true)
                    (emergency_requests s) (emergency_requests s') /\
            Forall2 (fun a a' => a' = a \/ sql_eq (Amb.driver_id a) uid = true)
                    (ambulances s) (ambulances s') /\
            (forall r, In r (emergency_requests s) ->
                       Req.assigned_driver_id r = None ->
                       In r (emergency_requests s'))).
  { intros ->. split; [reflexivity|].
    split; [rewrite <- (map_id (emergency_requests s)) at 2;
            apply Forall2_map_right; auto|].
    split; [rewrite <- (map_id (ambulances s)) at 2;
            apply Forall2_map_right; auto|auto]. }
  unfold s' in *. clear s'. unfold AdminDashboard.assignAmbulance in *.
  destruct (AdminDashboard.optional_chain _ _) as [d|]; simpl in *;
    [|now apply Hsame].
  destruct (update_emergency_requests s uid rid
              (AdminDashboard.assign_patch aid (Some d)) now)
    as [tbl|e] eqn:E; simpl in *; [|now apply Hsame].
  clear Hsame.
  pose proof (rls_update_checked _ _ _ _ _ E) as Hchk.
  apply rls_update_Ok in E. subst tbl.
  set (tbl := map _ (emergency_requests s)).
  assert (Hamb : Forall2 (fun a a' => a' = a \/ sql_eq (Amb.driver_id a) uid = true)
            (ambulances s)
            (ambulances
               (ambulances_after
                  (update_ambulances (with_emergency_requests tbl s) uid aid
                     busy_patch now)
                  (with_emergency_requests tbl s)))).
  { destruct (update_ambulances (with_emergency_requests tbl s) uid aid
                busy_patch now) as [tbl2|e2] eqn:E2; simpl.
    - apply rls_update_Ok in E2. subst tbl2. simpl.
      apply Forall2_map_right. intros a _.
      destruct (N.eqb (Amb.id a) aid); simpl; [|now left].
      unfold ambulances_update_policy.
      change (has_role (with_emergency_requests tbl s) uid admin)
        with (has_role s uid admin).
      rewrite Hadmin, orb_false_r.
      destruct (sql_eq (Amb.driver_id a) uid); auto.
    - rewrite <- (map_id (ambulances s)) at 2. apply Forall2_map_right. auto. }
  assert (Hreq : emergency_requests
                   (ambulances_after
                      (update_ambulances (with_emergency_requests tbl s) uid aid
                         busy_patch now)
                      (with_emergency_requests tbl s)) = tbl)
    by now destruct (update_ambulances _ _ _ _ _).
  rewrite Hreq. unfold tbl.
  split; [|split; [|split; [exact Hamb|]]].
  - rewrite map_map. apply map_ext_in. intros r Hr.
    destruct (N.eqb (Req.id r) rid && requests_update_policy s uid r) eqn:C;
      [|reflexivity].
    specialize (Hchk r Hr C). unfold request_violation in Hchk.
    destruct (requests_update_policy s uid
                (Req.apply (AdminDashboard.assign_patch aid (Some d)) now r))
      eqn:P; [|discriminate]. clear Hchk.
    apply andb_true_iff in C. destruct C as [_ C].
    unfold requests_update_policy in C, P. rewrite Hadmin, orb_false_r in C, P.
    apply sql_eq_true in C, P. congruence.
  - apply Forall2_map_right. intros r _.
    destruct (N.eqb (Req.id r) rid); simpl; [|now left].
    unfold requests_update_policy. rewrite Hadmin, orb_false_r.
    destruct (sql_eq (Req.assigned_driver_id r) uid); auto.
  - intros r Hr Hnone. apply in_map_iff. exists r. split; [|assumption].
    unfold requests_update_policy. rewrite Hadmin, orb_false_r, Hnone. simpl.
    now rewrite andb_false_r.
Qed.

(** ** The base station migration *)

(** X20.  After the migration that adds the base station columns every
    ambulance stands at its base station: the base coordinates of every row
    are its current coordinates.  Ids, drivers, plate numbers, statuses and
    creation times are as before; so are the current coordinates of every
    ambulance but ABJ-003-SC, which stands at (9.0820, 7.5350). *)
Theorem migration_puts_fleet_at_base (now : timestamptz) (tbl : list Amb.row) :
  let tbl' := add_base_station_columns now tbl in
  map (fun a => (Amb.base_lat a, Amb.base_lng a)) tbl' = map position tbl' /\
  map (fun a => (Amb.id a, Amb.driver_id a, Amb.plate_number a, Amb.status a,
                 Amb.created_at a)) tbl'
  = map (fun a => (Amb.id a, Amb.driver_id a, Amb.plate_number a, Amb.status a,
                   Amb.created_at a)) tbl /\
  map position tbl'
  = map (fun a => if String.eqb (Amb.plate_number a) "ABJ-003-SC"
                  then (Some 9.0820%Q, Some 7.5350%Q) else position a) tbl.
Proof.
  intros tbl'. subst tbl'. unfold add_base_station_columns.
  rewrite !map_map. repeat split; apply map_ext; intros a; simpl;
    destruct (String.eqb (Amb.plate_number a) "ABJ-003-SC") eqn:E; simpl;
    rewrite ?E; reflexivity.
Qed.

(** ** The validation of the request form *)



(** ** Seeding the fleet *)





(** ** The fleet map *)

(** X23.  The fleet map of the admin dashboard draws an ambulance where the
    dispatch trigger measures it from, the fallback point included, unless
    one of its coordinates is exactly zero: the map then draws the fallback
    coordinate, while the trigger measures from zero. *)
Theorem fleet_marker_is_dispatch_origin (a : Amb.row) :
  ((forall v, Amb.current_lat a = Some v -> ~ (v == 0)%Q) ->
   (forall v, Amb.current_lng a = Some v -> ~ (v == 0)%Q) ->
   fleet_marker a = (COALESCE (Amb.current_lat a) fallback_lat,
                     COALESCE (Amb.current_lng a) fallback_lng)) /\
  (forall v, Amb.current_lat a = Some v -> (v == 0)%Q ->
     fst (fleet_marker a) = fallback_lat /\
     (COALESCE (Amb.current_lat a) fallback_lat == 0)%Q) /\
  (forall v, Amb.current_lng a = Some v -> (v == 0)%Q ->
     snd (fleet_marker a) = fallback_lng /\
     (COALESCE (Amb.current_lng a) fallback_lng == 0)%Q).
Proof.
  unfold fleet_marker, js_or, fallback_lat, fallback_lng.
  split; [|split].
  - intros Hlat Hlng. f_equal.
    + destruct (Amb.current_lat a) as [x|]; [|reflexivity]. cbn [COALESCE].
      destruct (Qeq_bool x 0) eqn:E; [|reflexivity].
      apply Qeq_bool_iff in E. now contradiction (Hlat x eq_refl).
    + destruct (Amb.current_lng a) as [y|]; [|reflexivity]. cbn [COALESCE].
      destruct (Qeq_bool y 0) eqn:E; [|reflexivity].
      apply Qeq_bool_iff in E. now contradiction (Hlng y eq_refl).
  - intros v -> Hz. cbn [fst snd COALESCE].
    rewrite (proj2 (Qeq_bool_iff v 0) Hz). split; [reflexivity|exact Hz].
  - intros v -> Hz. cbn [fst snd COALESCE].
    rewrite (proj2 (Qeq_bool_iff v 0) Hz). split; [reflexivity|exact Hz].
Qed.

(** ** The fifty newest requests *)

Lemma insert_sorted_desc (x : Req.row) (l : list Req.row) :
  StronglySorted (fun a b => (Req.created_at b <= Req.created_at a)%Z) l ->
  StronglySorted (fun a b => (Req.created_at b <= Req.created_at a)%Z)
                 (insert_sorted created_at_desc x l).
Proof.
  induction 1 as [|y t Ht IH Hy]; simpl.
  - constructor; constructor.
  - unfold created_at_desc at 1. destruct (Z.leb_spec (Req.created_at y) (Req.created_at x)).
    + constructor; [now constructor|]. constructor; [assumption|].
      rewrite Forall_forall in *. intros z Hz. specialize (Hy z Hz). lia.
    + constructor; [assumption|].
      rewrite Forall_forall in *. intros z Hz.
      apply In_insert_sorted in Hz. destruct Hz as [->|Hz]; [lia|auto].
Qed.

Lemma order_by_desc (l : list Req.row) :
  StronglySorted (fun a b => (Req.created_at b <= Req.created_at a)%Z)
                 (order_by created_at_desc l).
Proof.
  induction l as [|x l IH]; simpl; [constructor|now apply insert_sorted_desc].
Qed.

Lemma filter_length_insert_sorted {A : Type} (before : A -> A -> bool)
  (p : A -> bool) (x : A) (l : list A) :
  List.length (filter p (insert_sorted before x l))
  = List.length (filter p (x :: l)).
Proof.
  induction l as [|y t IH]; simpl; [reflexivity|].
  destruct (before x y); simpl; [reflexivity|].
  simpl in IH. destruct (p y), (p x); simpl in *; lia.
Qed.

Lemma filter_length_order_by {A : Type} (before : A -> A -> bool)
  (p : A -> bool) (l : list A) :
  List.length (filter p (order_by before l)) = List.length (filter p l).
Proof.
  induction l as [|x l IH]; simpl; [reflexivity|].
  rewrite filter_length_insert_sorted. simpl. destruct (p x); simpl; lia.
Qed.

(** A row among the first [n] of a list sorted newest first has fewer than
    [n] rows newer than itself. *)
Lemma sorted_prefix_count (r : Req.row) (n : nat) (l : list Req.row) :
  StronglySorted (fun a b => (Req.created_at b <= Req.created_at a)%Z) l ->
  In r (firstn n l) ->
  (List.length (filter (newer_than r) l) < n)%nat.
Proof.
  intros Hs. revert n. induction Hs as [|x t Ht IH Hx]; intros n Hin.
  - destruct n; contradiction.
  - destruct n as [|m]; [contradiction|]. simpl in Hin. destruct Hin as [->|Hin].
    + simpl. unfold newer_than at 1. rewrite Z.ltb_irrefl.
      rewrite filter_none; [simpl; lia|].
      intros z Hz. rewrite Forall_forall in Hx. specialize (Hx z Hz).
      unfold newer_than. apply Z.ltb_ge. exact Hx.
    + specialize (IH m Hin). simpl. destruct (newer_than r x); simpl; lia.
Qed.

Lemma assign_offered_on_dashboard (s : db) (r : Req.row) (user : uuid)
  (now : timestamptz) (aid : uuid) :
  NoDup (map Req.id (emergency_requests s)) ->
  In r (emergency_requests s) ->
  ui_offered (UiAssignSelect user now (Req.id r) aid) s = true ->
  In r (firstn 50 (order_by created_at_desc (emergency_requests s))).
Proof.
  intros Hnd Hr Hoff. unfold ui_offered in Hoff.
  apply andb_true_iff in Hoff. destruct Hoff as [Hoff _].
  apply andb_true_iff in Hoff. destruct Hoff as [_ E].
  apply existsb_exists in E. destruct E as (r0 & Hin0 & Hr0).
  change (In r0 (firstn 50 (order_by created_at_desc (emergency_requests s))))
    in Hin0.
  apply andb_true_iff in Hr0. destruct Hr0 as [Hid _].
  apply N.eqb_eq in Hid.
  assert (r0 = r).
  { eapply NoDup_map_eq; eauto. now apply In_firstn, In_order_by in Hin0. }
  now subst r0.
Qed.

Lemma beyond_fifty_hidden (s : db) (r : Req.row) :
  (50 <= List.length (filter (newer_than r) (emergency_requests s)))%nat ->
  ~ In r (firstn 50 (order_by created_at_desc (emergency_requests s))).
Proof.
  intros Hcount Hin.
  apply (@sorted_prefix_count r 50 _ (order_by_desc (emergency_requests s)))
    in Hin.
  rewrite filter_length_order_by in Hin. lia.
Qed.

(** X24.  The admin dashboard fetches the fifty newest requests.  A request
    with fifty or more requests newer than itself is not on it, so the
    dashboard offers no assignment for it, whoever looks and whichever
    ambulance is free. *)
Theorem old_request_not_offered (s : db) (r : Req.row) (user : uuid)
  (now : timestamptz) (aid : uuid) :
  NoDup (map Req.id (emergency_requests s)) ->
  In r (emergency_requests s) ->
  (50 <= List.length (filter (newer_than r) (emergency_requests s)))%nat ->
  ~ In r (AdminDashboard.requests (AdminDashboard.fetchData s)) /\
  ui_offered (UiAssignSelect user now (Req.id r) aid) s = false.
Proof.
  intros Hnd Hr Hcount. split; [now apply beyond_fifty_hidden|].
  destruct (ui_offered (UiAssignSelect user now (Req.id r) aid) s) eqn:E;
    [|reflexivity].
  exfalso. apply (@beyond_fifty_hidden _ _ Hcount).
  eapply assign_offered_on_dashboard; eauto.
Qed.

(** X25.  A pending request with fifty or more requests newer than itself
    is stranded: whatever the pages are used for from then on, it stays
    stored as it is, pending and without an ambulance, and never comes back
    among the fifty newest. *)
Theorem old_pending_request_is_stranded (s s' : db) (r : Req.row) :
  ui_reachable s ->
  In r (emergency_requests s) -> Req.status r = Req.pending ->
  (50 <= List.length (filter (newer_than r) (emergency_requests s)))%nat ->
  ui_steps s s' ->
  In r (emergency_requests s') /\
  ~ In r (AdminDashboard.requests (AdminDashboard.fetchData s')).
Proof.
  intros Hs Hr Hp Hcount Hsteps.
  induction Hsteps as [s|s op s' Hoff Hsteps IH].
  - split; [assumption|now apply beyond_fifty_hidden].
  - pose proof (ui_reachable_invariant Hs) as (Hnda & Hndr & _).
    destruct (@ui_run_requests_shape s op Hnda Hndr Hoff)
      as (g & extra & E & Hcreated & Hpending).
    assert (Hg : g r = r).
    { destruct (Hpending r Hr Hp) as [H|(user & now & aid & ->)]; [exact H|].
      exfalso. apply (@beyond_fifty_hidden _ _ Hcount).
      eapply assign_offered_on_dashboard; eauto. }
    apply IH.
    + now apply ui_reachable_run.
    + rewrite E. apply in_or_app. left. rewrite <- Hg. now apply in_map.
    + rewrite E, filter_app, length_app.
      rewrite filter_map_keeps
        by (intros x; unfold newer_than; now rewrite Hcreated).
      rewrite length_map. lia.
Qed.

(** ** The further properties on the worked states *)

Lemma manual_assignment_requires_admin_witness :
  has_role race_db3 (Some 1%N) admin = false /\
  exists r,
    In r (emergency_requests race_db3) /\ Req.id r = 302%N /\
    Req.assigned_driver_id r = None /\
    In r (emergency_requests
            (fst (AdminDashboard.assignAmbulance (Some 1%N) race_admin_view 14
                    302 101 race_db3))).
Proof.
  assert (H1 : has_role race_db3 (Some 1%N) admin = false) by reflexivity.
  split; [exact H1|].
  eexists. split; [vm_compute; right; left; reflexivity|].
  split; [reflexivity|]. split; [reflexivity|].
  match goal with
  | |- In ?r _ =>
    assert (Hin : In r (emergency_requests race_db3))
      by (vm_compute; right; left; reflexivity);
    exact (proj2 (proj2 (proj2
             (@manual_assignment_requires_admin (Some 1%N) race_admin_view 14%Z 302%N
                101%N race_db3 H1))) r Hin eq_refl)
  end.
Defined.



Lemma fleet_marker_is_dispatch_origin_witness :
  fleet_marker amb_1 = (9.08%Q, 7.40%Q) /\
  fst (fleet_marker (locate (Some 0%Q) (Some 7.40%Q) amb_1)) = fallback_lat /\
  (COALESCE (Amb.current_lat (locate (Some 0%Q) (Some 7.40%Q) amb_1)) fallback_lat
   == 0)%Q.
Proof.
  assert (Hlat : forall v, Amb.current_lat amb_1 = Some v -> ~ (v == 0)%Q).
  { intros v E. injection E as <-. discriminate. }
  assert (Hlng : forall v, Amb.current_lng amb_1 = Some v -> ~ (v == 0)%Q).
  { intros v E. injection E as <-. discriminate. }
  assert (Hz : (0 == 0)%Q) by reflexivity.
  split.
  - exact (proj1 (fleet_marker_is_dispatch_origin amb_1) Hlat Hlng).
  - exact (proj1 (proj2 (fleet_marker_is_dispatch_origin
                           (locate (Some 0%Q) (Some 7.40%Q) amb_1)))
                 0%Q eq_refl Hz).
Defined.

Lemma crowded_db_ui_reachable : ui_reachable crowded_db.
Proof.
  unfold crowded_db. cbn [fold_left seq].
  repeat (apply ui_reachable_run; [|reflexivity]).
  apply ui_reachable_initial. split; [reflexivity|constructor].
Qed.

Lemma old_request_not_offered_witness :
  exists r,
    In r (emergency_requests crowded_db) /\ Req.id r = 1%N /\
    (50 <= List.length (filter (newer_than r) (emergency_requests crowded_db)))%nat
    /\
    ui_offered (UiAssignSelect 9 60 1 101) crowded_db = false.
Proof.
  eexists. split; [vm_compute; left; reflexivity|].
  split; [reflexivity|].
  match goal with
  | |- (50 <= List.length (filter (newer_than ?r) _))%nat /\ _ =>
    assert (Hin : In r (emergency_requests crowded_db))
      by (vm_compute; left; reflexivity);
    assert (Hc : (50 <= List.length (filter (newer_than r)
                                       (emergency_requests crowded_db)))%nat)
      by (vm_compute; repeat constructor)
  end.
  split; [exact Hc|].
  exact (proj2 (@old_request_not_offered crowded_db _ 9%N 60%Z 101%N
                  (proj1 (proj2 (ui_reachable_invariant crowded_db_ui_reachable)))
                  Hin Hc)).
Defined.

Lemma old_pending_request_is_stranded_witness :
  exists r,
    In r (emergency_requests crowded_db) /\ Req.id r = 1%N /\
    Req.status r = Req.pending /\
    In r (emergency_requests
            (ui_run (UiSubmit 52 (N.shiftl 52 96) 52 form_A) crowded_db)).
Proof.
  eexists. split; [vm_compute; left; reflexivity|].
  split; [reflexivity|]. split; [reflexivity|].
  match goal with
  | |- In ?r _ =>
    assert (Hin : In r (emergency_requests crowded_db))
      by (vm_compute; left; reflexivity);
    assert (Hc : (50 <= List.length (filter (newer_than r)
                                       (emergency_requests crowded_db)))%nat)
      by (vm_compute; repeat constructor);
    assert (Hsteps : ui_steps crowded_db
                       (ui_run (UiSubmit 52 (N.shiftl 52 96) 52 form_A)
                          crowded_db))
      by (apply ui_steps_run with (op := UiSubmit 52 (N.shiftl 52 96) 52 form_A);
          [reflexivity|apply ui_steps_refl]);
    exact (proj1 (@old_pending_request_is_stranded crowded_db
                    (ui_run (UiSubmit 52 (N.shiftl 52 96) 52 form_A) crowded_db)
                    r crowded_db_ui_reachable Hin eq_refl Hc Hsteps))
  end.
Defined.

(** ** The trip history *)

Lemma minutes_close (d : Z) :
  (d - 30000 < 60000 * Math_round (inject_Z d / 60000)%Q <= d + 30000)%Z.
Proof.
  destruct (Math_round_close (inject_Z d / 60000)) as [Hlo Hhi].
  set (m := Math_round (inject_Z d / 60000)) in *.
  assert (E : (inject_Z d / 60000 == (1 # 60000) * inject_Z d)%Q) by field.
  split.
  - rewrite Zlt_Qlt. unfold Z.sub.
    rewrite inject_Z_plus, inject_Z_mult.
    change (inject_Z (- (30000))) with (-30000)%Q.
    change (inject_Z 60000) with 60000%Q. lra.
  - rewrite Zle_Qle. rewrite inject_Z_plus, inject_Z_mult.
    change (inject_Z 30000) with 30000%Q.
    change (inject_Z 60000) with 60000%Q. lra.
Qed.

(** X26.  [getDuration] gives nothing for a request without a completion
    time.  For a request completed no earlier than it was created it gives
    the time between the two in minutes, rounded to the nearest minute:
    under an hour as minutes from 0 to 59, else as at least one hour and 0
    to 59 minutes that add up to the same number. *)
Theorem getDuration_reads_back (created c : timestamptz) :
  DriverRequestHistory.getDuration created None = None /\
  ((created <= c)%Z ->
   exists mins,
     (0 <= mins)%Z /\
     (c - created - 30000 < 60000 * mins <= c - created + 30000)%Z /\
     ((mins < 60)%Z ->
      DriverRequestHistory.getDuration created (Some c)
      = Some (DriverRequestHistory.min mins)) /\
     ((60 <= mins)%Z ->
      exists hrs remainMins,
        DriverRequestHistory.getDuration created (Some c)
        = Some (DriverRequestHistory.h_m hrs remainMins) /\
        (1 <= hrs)%Z /\ (0 <= remainMins < 60)%Z /\
        (60 * hrs + remainMins = mins)%Z)).
Proof.
  split; [reflexivity|]. intros Hle.
  pose proof (minutes_close (c - created)) as Hclose.
  exists (Math_round (inject_Z (c - created) / 60000)%Q).
  set (mins := Math_round (inject_Z (c - created) / 60000)%Q) in *.
  assert (H0 : (0 <= mins)%Z) by lia.
  split; [exact H0|]. split; [exact Hclose|]. split.
  - intros Hlt. unfold DriverRequestHistory.getDuration. fold mins.
    apply Z.ltb_lt in Hlt. now rewrite Hlt.
  - intros Hge. exists (mins / 60)%Z, (Z.rem mins 60).
    split.
    + unfold DriverRequestHistory.getDuration. fold mins.
      apply Z.ltb_ge in Hge. now rewrite Hge.
    + rewrite Z.rem_mod_nonneg by lia.
      pose proof (Z.mod_pos_bound mins 60). pose proof (Z.div_mod mins 60).
      assert (1 <= mins / 60)%Z by (apply Z.div_le_lower_bound; lia).
      lia.
Qed.

Lemma length_insert_sorted {A : Type} (before : A -> A -> bool) (x : A)
  (l : list A) :
  List.length (insert_sorted before x l) = S (List.length l).
Proof.
  induction l as [|y t IH]; simpl; [reflexivity|].
  destruct (before x y); simpl; congruence.
Qed.

Lemma length_order_by {A : Type} (before : A -> A -> bool) (l : list A) :
  List.length (order_by before l) = List.length l.
Proof.
  induction l as [|x l IH]; simpl; [reflexivity|].
  now rewrite length_insert_sorted, IH.
Qed.

Lemma updateRequestStatus_requests (uid : option uuid)
  (st : DriverDashboard.state) (now : timestamptz) (rid : uuid)
  (ns : Req.status_t) (s : db) :
  emergency_requests (fst (DriverDashboard.updateRequestStatus uid st now rid ns s))
  = map (fun r => if N.eqb (Req.id r) rid && requests_update_policy s uid r
                  then Req.apply (DriverDashboard.status_patch ns now) now r
                  else r)
        (emergency_requests s).
Proof.
  rewrite updateRequestStatus_unfold. cbv zeta.
  now destruct (DriverDashboard.ambulance st).
Qed.

(** Rewriting the one row with a given key adds at most one row to what a
    filter keeps. *)
Lemma filter_length_update (p : Req.row -> bool) (h : Req.row -> Req.row)
  (rid : uuid) (l : list Req.row) :
  NoDup (map Req.id l) ->
  (forall x, Req.id x <> rid -> h x = x) ->
  (List.length (filter p (map h l)) <= S (List.length (filter p l)))%nat.
Proof.
  intros Hnd Hh. induction l as [|x l IH]; simpl; [lia|].
  inversion Hnd as [|? ? Hnotin Hnd']; subst.
  destruct (N.eq_dec (Req.id x) rid) as [E|E].
  - assert (Hrest : map h l = l).
    { rewrite <- (map_id l) at 2. apply map_ext_in. intros y Hy. apply Hh.
      intros Ey. apply Hnotin. rewrite E, <- Ey. now apply in_map. }
    rewrite Hrest. destruct (p (h x)), (p x); simpl; lia.
  - rewrite (Hh x E). specialize (IH Hnd'). destruct (p x); simpl; lia.
Qed.

(** X27.  When the assigned driver completes a trip, the request leaves
    the list of the driver dashboard and, for a driver with fewer than
    fifty completed trips, enters the trip history, where its duration
    runs from its creation to the time of the call. *)
Theorem completed_trip_moves_to_history (s : db) (u : uuid)
  (st : DriverDashboard.state) (now : timestamptz) (r : Req.row) :
  NoDup (map Req.id (emergency_requests s)) ->
  In r (emergency_requests s) ->
  Req.assigned_driver_id r = Some u ->
  (List.length
     (filter (fun x => sql_eq (Req.assigned_driver_id x) (Some u)
                       && Req.status_eqb (Req.status x) Req.completed)
             (emergency_requests s)) < 50)%nat ->
  let s' := fst (DriverDashboard.updateRequestStatus (Some u) st now (Req.id r)
                   Req.completed s) in
  (forall x, In x (DriverDashboard.requests
                     (DriverDashboard.fetchData (Some u) DriverDashboard.initial s')) ->
             Req.id x <> Req.id r) /\
  exists r',
    In r' (DriverRequestHistory.fetchHistory u s') /\
    Req.id r' = Req.id r /\
    Req.tracking_code r' = Req.tracking_code r /\
    DriverRequestHistory.getDuration (Req.created_at r') (Req.completed_at r')
    = DriverRequestHistory.getDuration (Req.created_at r) (Some now).
Proof.
  intros Hnd Hr Hdrv Hcount s'.
  assert (Hpol : requests_update_policy s (Some u) r = true).
  { unfold requests_update_policy. rewrite Hdrv. simpl. now rewrite N.eqb_refl. }
  assert (E : emergency_requests s'
              = map (fun x => if N.eqb (Req.id x) (Req.id r)
                                 && requests_update_policy s (Some u) x
                              then Req.apply
                                     (DriverDashboard.status_patch Req.completed now)
                                     now x
                              else x)
                    (emergency_requests s))
    by apply updateRequestStatus_requests.
  set (r' := Req.apply (DriverDashboard.status_patch Req.completed now) now r).
  assert (Hr' : In r' (emergency_requests s')).
  { rewrite E. apply in_map_iff. exists r. now rewrite N.eqb_refl, Hpol. }
  assert (Hnd' : NoDup (map Req.id (emergency_requests s'))).
  { rewrite E, map_map_keeps; [assumption|]. intros x. now destruct (_ && _). }
  split.
  - intros x Hx Hid. apply fetchData_requests in Hx.
    destruct Hx as (Hin & _ & Hlisted).
    assert (x = r') by (eapply NoDup_map_eq; eauto). subst x.
    discriminate Hlisted.
  - exists r'. split; [|repeat split].
    unfold DriverRequestHistory.fetchHistory.
    rewrite firstn_all2.
    + apply In_order_by, filter_In. split; [assumption|].
      simpl. rewrite Hdrv. simpl. now rewrite N.eqb_refl.
    + rewrite length_order_by, E.
      pose proof (@filter_length_update
                    (fun x => sql_eq (Req.assigned_driver_id x) (Some u)
                              && Req.status_eqb (Req.status x) Req.completed)
                    (fun x => if N.eqb (Req.id x) (Req.id r)
                                 && requests_update_policy s (Some u) x
                              then Req.apply
                                     (DriverDashboard.status_patch Req.completed now)
                                     now x
                              else x)
                    (Req.id r) (emergency_requests s) Hnd) as Hlen.
      assert (Hh : forall x, Req.id x <> Req.id r ->
                (if N.eqb (Req.id x) (Req.id r)
                    && requests_update_policy s (Some u) x
                 then Req.apply (DriverDashboard.status_patch Req.completed now)
                        now x
                 else x) = x).
      { intros x Hx. apply N.eqb_neq in Hx. now rewrite Hx. }
      specialize (Hlen Hh). lia.
Qed.

Lemma getDuration_reads_back_witness :
  (0 <= 5430000)%Z /\
  DriverRequestHistory.getDuration 0 (Some 5430000%Z)
  = Some (DriverRequestHistory.h_m 1 31).
Proof.
  assert (H : (0 <= 5430000)%Z) by lia.
  split; [exact H|].
  destruct (proj2 (getDuration_reads_back 0%Z 5430000%Z) H)
    as (mins & _ & Hclose & _ & Hhours).
  assert (Hm : (60 <= mins)%Z) by lia.
  destruct (Hhours Hm) as (hrs & remainMins & E & Hh & Hr & Hsum).
  refine (eq_trans E _). f_equal.
  assert (hrs = 1%Z) by lia. assert (remainMins = 31%Z) by lia.
  now subst.
Defined.

Lemma completed_trip_moves_to_history_witness :
  In req_D (emergency_requests scenario_D_db) /\
  Req.assigned_driver_id req_D = Some 1%N /\
  exists r',
    In r' (DriverRequestHistory.fetchHistory 1
             (fst (DriverDashboard.updateRequestStatus (Some 1%N)
                     (DriverDashboard.fetchData (Some 1%N) DriverDashboard.initial
                        scenario_D_db)
                     1220 204 Req.completed scenario_D_db))) /\
    Req.id r' = 204%N.
Proof.
  split; [now left|]. split; [reflexivity|].
  assert (Hc : (List.length
                  (filter (fun x => sql_eq (Req.assigned_driver_id x) (Some 1%N)
                                    && Req.status_eqb (Req.status x) Req.completed)
                          (emergency_requests scenario_D_db)) < 50)%nat)
    by (simpl; lia).
  destruct (@completed_trip_moves_to_history scenario_D_db 1%N
              (DriverDashboard.fetchData (Some 1%N) DriverDashboard.initial
                 scenario_D_db)
              1220%Z req_D (proj1 scenario_D_keys) (or_introl eq_refl) eq_refl Hc)
    as (_ & r' & Hin & Hid & _).
  exists r'. split; [exact Hin|exact Hid].
Defined.
